(** * A todo list on a Redux store: the reducer and the components around it

    The development embeds the TypeScript sources of the application:

    - [src/store/index.ts]: the slice reducer [list] of the store;
    - [src/components/MainApp/index.tsx]: the class component [Index]
      (the "all todos is done" flag, the checkbox handler, the dispatchers
      of [connect]);
    - [src/components/UserSelect/index.tsx]: [handleChange];
    - [src/components/InputNewTodo]: [componentDidUpdate], [handleChange],
      [handleKeyDown].

    JavaScript objects and arrays are shared and mutable, and what the
    application promises is phrased in terms of references ("a new list",
    "the old snapshot is untouched").  The embedding therefore keeps an
    explicit heap of objects addressed by locations; a value is either a
    primitive or a reference into that heap.  A [TypeError] raised by the
    code is the [Throw] outcome of the [result] monad. *)

From Stdlib Require Import ZArith Ascii String.
From stdpp Require Import base option list gmap strings pretty.

Local Open Scope string_scope.
Local Open Scope Z_scope.

(** ** Values and the heap *)

Definition loc := positive.

(** The JavaScript values that occur in the program.  Numbers are the
    integral ones (array indices, user ids, key codes). *)
Inductive val :=
  | VUndefined
  | VNum (n : Z)
  | VStr (s : string)
  | VBool (b : bool)
  | VRef (l : loc).

Global Instance val_eq_dec : EqDecision val.
Proof. solve_decision. Defined.

(** A heap cell is an array or a plain object (own enumerable properties). *)
Inductive obj :=
  | OArray (elems : list val)
  | OObject (fields : gmap string val).

Global Instance obj_eq_dec : EqDecision obj.
Proof. solve_decision. Defined.

Abbreviation heap := (gmap loc obj).

(** Outcome of a piece of code that may raise a [TypeError]. *)
Inductive result (A : Type) :=
  | Ok (a : A)
  | Throw.
Arguments Ok {A} a.
Arguments Throw {A}.

Global Instance result_ret : MRet result := λ A a, Ok a.
Global Instance result_bind : MBind result := λ A B f r,
  match r with
  | Ok a => f a
  | Throw => Throw
  end.

(** [new]: a literal ([{...}], [[...]]) evaluates to a fresh object. *)
Definition alloc (h : heap) (o : obj) : heap * loc :=
  let l := fresh (dom h) in (<[l := o]> h, l).

(** [v.k] for the property names the program reads ([todos], [isDone]):
    reading a property of [undefined] raises, a primitive or an array has no
    such property. *)
Definition get_prop (h : heap) (v : val) (k : string) : result val :=
  match v with
  | VUndefined => Throw
  | VRef l =>
      match h !! l with
      | Some (OObject fields) => Ok (default VUndefined (fields !! k))
      | Some (OArray _) => Ok VUndefined
      | None => Throw
      end
  | _ => Ok VUndefined
  end.

(** [res.k = v] on an object [res]. *)
Definition set_prop (h : heap) (res : loc) (k : string) (v : val) : heap :=
  match h !! res with
  | Some (OObject fields) => <[res := OObject (<[k := v]> fields)]> h
  | _ => h
  end.

(** The own enumerable properties of an array or of a string, keyed by the
    decimal index. *)
Definition index_fields (elems : list val) : gmap string val :=
  list_to_map (imap (λ i e, (pretty i, e)) elems).

Definition chars (s : string) : list val :=
  (λ c, VStr (String c EmptyString)) <$> list_ascii_of_string s.

(** [{...v}]: the properties an object spread copies out of [v]. *)
Definition spread (h : heap) (v : val) : gmap string val :=
  match v with
  | VRef l =>
      match h !! l with
      | Some (OObject fields) => fields
      | Some (OArray elems) => index_fields elems
      | None => ∅
      end
  | VStr s => index_fields (chars s)
  | _ => ∅
  end.

(** [!v] is [negb (truthy v)]. *)
Definition truthy (v : val) : bool :=
  match v with
  | VUndefined => false
  | VNum n => negb (bool_decide (n = 0))
  | VStr s => negb (bool_decide (s = ""))
  | VBool b => b
  | VRef _ => true
  end.

(** [a === b]; on two numbers [a == b] is the same comparison. *)
Definition strict_eq (a b : val) : bool := bool_decide (a = b).

(** ** Arrays: [push], [filter], [map] *)

Definition array_elems (h : heap) (arr : val) : result (list val) :=
  match arr with
  | VRef l =>
      match h !! l with
      | Some (OArray elems) => Ok elems
      | _ => Throw
      end
  | _ => Throw
  end.

(** [arr.push(v)] appends in place: the array keeps its location. *)
Definition array_push (h : heap) (arr v : val) : result heap :=
  match arr with
  | VRef l =>
      match h !! l with
      | Some (OArray elems) => Ok (<[l := OArray (elems ++ [v])]> h)
      | _ => Throw
      end
  | _ => Throw
  end.

Fixpoint filter_from (keep : val → Z → bool) (index : Z) (elems : list val)
    : list val :=
  match elems with
  | [] => []
  | t :: rest =>
      if keep t index then t :: filter_from keep (index + 1) rest
      else filter_from keep (index + 1) rest
  end.

(** [arr.filter((t, index) => keep)] builds a new array. *)
Definition array_filter (keep : val → Z → bool) (h : heap) (arr : val)
    : result (heap * val) :=
  elems ← array_elems h arr;
  let '(h1, l) := alloc h (OArray (filter_from keep 0 elems)) in
  Ok (h1, VRef l).

Fixpoint map_from (f : heap → val → Z → result (heap * val)) (h : heap)
    (index : Z) (elems : list val) : result (heap * list val) :=
  match elems with
  | [] => Ok (h, [])
  | t :: rest =>
      '(h1, r) ← f h t index;
      '(h2, rs) ← map_from f h1 (index + 1) rest;
      Ok (h2, r :: rs)
  end.

(** [arr.map((t, index) => ...)] with a callback that may allocate; the
    new array is given its cell once its elements are known. *)
Definition array_map (f : heap → val → Z → result (heap * val)) (h : heap)
    (arr : val) : result (heap * val) :=
  elems ← array_elems h arr;
  '(h1, rs) ← map_from f h 0 elems;
  let '(h2, l) := alloc h1 (OArray rs) in
  Ok (h2, VRef l).

(** ** The store: [src/store/index.ts] *)

Record action := { type : string; payload : val }.

(** The slice reducer [list].  The default parameter [state = {todos: []}]
    applies when [state] is [undefined]. *)
Definition reducer (h : heap) (state : val) (a : action)
    : result (heap * val) :=
  let '(h, state) :=
    match state with
    | VUndefined =>
        let '(h1, arr) := alloc h (OArray []) in
        let '(h2, s) := alloc h1 (OObject {["todos" := VRef arr]}) in
        (h2, VRef s)
    | _ => (h, state)
    end in
  if bool_decide (type a = "ADD_TODO") then
    let newState := state in
    todos ← get_prop h newState "todos";
    h1 ← array_push h todos (payload a);
    Ok (h1, newState)
  else if bool_decide (type a = "REMOVE_TODO") then
    todos ← get_prop h state "todos";
    '(h1, filtered) ←
      array_filter (λ t index, negb (strict_eq (VNum index) (payload a)))
        h todos;
    let '(h2, s) :=
      alloc h1 (OObject (<["todos" := filtered]> (spread h1 state))) in
    Ok (h2, VRef s)
  else if bool_decide (type a = "CHANGE_TODOS") then
    let '(h1, s) := alloc h (OObject {["todos" := payload a]}) in
    Ok (h1, VRef s)
  else
    Ok (h, state).

(** The store hands the current slice state and the action to the reducer
    and keeps what it returns. *)
Definition dispatch (h : heap) (state : val) (a : action)
    : result (heap * val) :=
  reducer h state a.

(** [useSelector(state => state.list.todos)] in [App] and [UserSelect]. *)
Definition select_todos (h : heap) (state : val) : result val :=
  get_prop h state "todos".

(** ** Strings: [String.prototype.trim]

    A string is a sequence of code units; the embedding covers the code
    units below 256, where the white space and line terminators that [trim]
    strips are TAB, LF, VT, FF, CR, SP and NBSP. *)

Definition is_white_space (c : ascii) : bool :=
  bool_decide (nat_of_ascii c ∈ [9; 10; 11; 12; 13; 32; 160]%nat).

Fixpoint trimStart (s : string) : string :=
  match s with
  | EmptyString => EmptyString
  | String c rest => if is_white_space c then trimStart rest else s
  end.

Definition trimEnd (s : string) : string :=
  String.rev (trimStart (String.rev s)).

Definition trim (s : string) : string := trimEnd (trimStart s).

(** ** [src/components/InputNewTodo] *)

Module InputNewTodo.

(** [this.state] is never initialised by the class: it is [None] until
    [componentDidUpdate] sets it. *)
Record InputNewTodoState := { value : string }.

(** The calls the component makes on its props. *)
Inductive call :=
  | onChange (todoTitle : string)
  | onSubmit (todo : val).

Definition componentDidUpdate (todoTitle prev_todoTitle : string)
    (state : option InputNewTodoState) : option InputNewTodoState :=
  if bool_decide (todoTitle ≠ prev_todoTitle)
  then Some {| value := todoTitle |}
  else state.

Definition handleChange (e_target_value : string) : list call :=
  [onChange e_target_value].

(** [event.preventDefault()] has no effect on the state modelled here. *)
Definition handleKeyDown (h : heap) (state : option InputNewTodoState)
    (keyCode : Z) : result (heap * list call) :=
  if bool_decide (keyCode ≠ 13) then Ok (h, [])
  else
    match state with
    | None => Throw
    | Some st =>
        let val := trim (value st) in
        if truthy (VStr val) then
          let '(h1, todo) :=
            alloc h (OObject {[ "title" := VStr (value st);
                                "isDone" := VBool false ]}) in
          Ok (h1, [onSubmit (VRef todo); onChange ""])
        else Ok (h, [])
    end.

(** How a run of a handler ends. *)
Inductive completion := Returned | Raised.

(** [handleKeyDown] once more, keeping what [result] drops when the handler
    raises: the heap and the calls made on the props up to that point.
    The one statement that can raise, the read of [this.state.value],
    comes before every call. *)
Definition handleKeyDown_run (h : heap) (state : option InputNewTodoState)
    (keyCode : Z) : heap * list call * completion :=
  if bool_decide (keyCode ≠ 13) then (h, [], Returned)
  else
    match state with
    | None => (h, [], Raised)
    | Some st =>
        let val := trim (value st) in
        if truthy (VStr val) then
          let '(h1, todo) :=
            alloc h (OObject {[ "title" := VStr (value st);
                                "isDone" := VBool false ]}) in
          (h1, [onSubmit (VRef todo); onChange ""], Returned)
        else (h, [], Returned)
    end.

End InputNewTodo.

(** ** [src/components/UserSelect/index.tsx] *)

Module UserSelect.

(** The callback of [todos.map] in [handleChange]; [value] is
    [e.target.value], a string.  (The [console.log] is left out.) *)
Definition callback (idx : Z) (value : string) (h : heap) (t : val)
    (index : Z) : result (heap * val) :=
  let '(h1, res) := alloc h (OObject (spread h t)) in
  if bool_decide (index = idx)
  then Ok (set_prop h1 res "user" (VStr value), VRef res)
  else Ok (h1, VRef res).

(** [todos] is the selected [state.list.todos] of the last render,
    [state] the slice state the store holds when the action arrives. *)
Definition handleChange (h : heap) (state todos : val) (idx : Z)
    (value : string) : result (heap * val) :=
  '(h1, changedTodos) ← array_map (callback idx value) h todos;
  dispatch h1 state {| type := "CHANGE_TODO"; payload := changedTodos |}.

End UserSelect.

(** ** [src/components/MainApp/index.tsx] *)

Module MainApp.

(** [connect]: the dispatchers of [mapDispatchToProps]. *)
Definition addTodo (h : heap) (state todo : val) : result (heap * val) :=
  dispatch h state {| type := "ADD_TODO"; payload := todo |}.

Definition changeTodo (h : heap) (state todos : val)
    : result (heap * val) :=
  dispatch h state {| type := "CHANGE_TODOS"; payload := todos |}.

Definition removeTodo (h : heap) (state : val) (index : Z)
    : result (heap * val) :=
  dispatch h state {| type := "REMOVE_TODOS"; payload := VNum index |}.

(** [render]: the loop that leaves its verdict in the global
    [window.allTodosIsDone]; [flag] is that global.  (The array that
    [map] builds from the callback's [undefined] results is dropped.) *)
Fixpoint allTodosIsDone_from (h : heap) (flag : bool) (elems : list val)
    : result bool :=
  match elems with
  | [] => Ok flag
  | t :: rest =>
      isDone ← get_prop h t "isDone";
      allTodosIsDone_from h
        (if negb (truthy isDone) then false else true) rest
  end.

Definition allTodosIsDone (h : heap) (todos : val) : result bool :=
  elems ← array_elems h todos;
  allTodosIsDone_from h true elems.

(** The callback of [this.props.todos.map] in the checkbox handler. *)
Definition callback (idx : Z) (h : heap) (t : val) (index : Z)
    : result (heap * val) :=
  let '(h1, res) := alloc h (OObject (spread h t)) in
  if bool_decide (index = idx) then
    isDone ← get_prop h1 t "isDone";
    Ok (set_prop h1 res "isDone" (VBool (negb (truthy isDone))), VRef res)
  else Ok (h1, VRef res).

(** The [onChange] handler of the checkbox of the todo at [idx]. *)
Definition onChange (h : heap) (state todos : val) (idx : Z)
    : result (heap * val) :=
  '(h1, changedTodos) ← array_map (callback idx) h todos;
  changeTodo h1 state changedTodos.

(** The component tree around the store: [Index.state.todoTitle] and the
    state of its [InputNewTodo]. *)
Record app := {
  mem : heap;
  list_state : val;
  todoTitle : string;
  input : option InputNewTodo.InputNewTodoState
}.

(** [handleSubmitTodo] and [handleTodoTitle], the props that [render]
    passes to [InputNewTodo] as [onSubmit] and [onChange].  After
    [setState] the input is rendered again with the new [todoTitle] and
    its [componentDidUpdate] runs. *)
Definition handle (a : app) (c : InputNewTodo.call) : result app :=
  match c with
  | InputNewTodo.onSubmit todo =>
      '(h1, state) ← addTodo (mem a) (list_state a) todo;
      Ok {| mem := h1; list_state := state;
            todoTitle := todoTitle a; input := input a |}
  | InputNewTodo.onChange title =>
      Ok {| mem := mem a; list_state := list_state a;
            todoTitle := title;
            input :=
              InputNewTodo.componentDidUpdate title (todoTitle a)
                (input a) |}
  end.

Fixpoint handle_all (a : app) (cs : list InputNewTodo.call) : result app :=
  match cs with
  | [] => Ok a
  | c :: rest => a1 ← handle a c; handle_all a1 rest
  end.

(** A key press in the input. *)
Definition keyDown (a : app) (keyCode : Z) : result app :=
  '(h1, cs) ← InputNewTodo.handleKeyDown (mem a) (input a) keyCode;
  handle_all {| mem := h1; list_state := list_state a;
                todoTitle := todoTitle a; input := input a |} cs.

(** Typing in the input. *)
Definition change (a : app) (text : string) : result app :=
  handle_all a (InputNewTodo.handleChange text).

(** The application once the calls [cs] have been served, up to the first
    one that raises: a call that raises ([addTodo] on a state without a
    list) has changed nothing by then, and the calls after it are not
    made. *)
Fixpoint handle_all_run (a : app) (cs : list InputNewTodo.call)
    : app * InputNewTodo.completion :=
  match cs with
  | [] => (a, InputNewTodo.Returned)
  | c :: rest =>
      match handle a c with
      | Ok a1 => handle_all_run a1 rest
      | Throw => (a, InputNewTodo.Raised)
      end
  end.

(** A key press in the input, with the application it leaves behind also
    when the handler raises. *)
Definition keyDown_run (a : app) (keyCode : Z)
    : app * InputNewTodo.completion :=
  let '(h1, cs, c) :=
    InputNewTodo.handleKeyDown_run (mem a) (input a) keyCode in
  let '(a1, c1) :=
    handle_all_run {| mem := h1; list_state := list_state a;
                      todoTitle := todoTitle a; input := input a |} cs in
  (a1, match c1 with
       | InputNewTodo.Raised => InputNewTodo.Raised
       | InputNewTodo.Returned => c
       end).

End MainApp.

(** The toggle and assign operations as the user triggers them: the
    handlers work on the list selected from the current state. *)
Definition toggleAt (h : heap) (state : val) (idx : Z)
    : result (heap * val) :=
  todos ← select_todos h state;
  MainApp.onChange h state todos idx.

Definition assignAt (h : heap) (state : val) (idx : Z) (value : string)
    : result (heap * val) :=
  todos ← select_todos h state;
  UserSelect.handleChange h state todos idx value.

(** The flag [render] shows, computed from the list [App] selects. *)
Definition allDoneFlag (h : heap) (state : val) : result bool :=
  todos ← select_todos h state;
  MainApp.allTodosIsDone h todos.

(** The [REMOVE_TODO] request of the reducer. *)
Definition removeAt (h : heap) (state : val) (index : Z)
    : result (heap * val) :=
  dispatch h state {| type := "REMOVE_TODO"; payload := VNum index |}.

(** ** Reading a list of todos off the heap *)

Record Todo := { title : string; user : option val; isDone : bool }.

Global Instance Todo_eq_dec : EqDecision Todo.
Proof. solve_decision. Defined.

(** The object that holds a todo: [user] is an optional property. *)
Definition todo_obj (t : Todo) : gmap string val :=
  let base : gmap string val :=
    {[ "title" := VStr (title t); "isDone" := VBool (isDone t) ]} in
  match user t with
  | Some u => <["user" := u]> base
  | None => base
  end.

Definition decode (fields : gmap string val) : option Todo :=
  match fields !! "title", fields !! "isDone" with
  | Some (VStr s), Some (VBool b) =>
      let t := {| title := s; user := fields !! "user"; isDone := b |} in
      if decide (todo_obj t = fields) then Some t else None
  | _, _ => None
  end.

Definition read_todo (h : heap) (v : val) : option Todo :=
  match v with
  | VRef l =>
      match h !! l with
      | Some (OObject fields) => decode fields
      | _ => None
      end
  | _ => None
  end.

Definition read_todos (h : heap) (arr : val) : option (list Todo) :=
  match arr with
  | VRef l =>
      match h !! l with
      | Some (OArray elems) => mapM (read_todo h) elems
      | _ => None
      end
  | _ => None
  end.

(** The list of todos a slice state holds. *)
Definition store_todos (h : heap) (state : val) : option (list Todo) :=
  match select_todos h state with
  | Ok todos => read_todos h todos
  | Throw => None
  end.

(** ** The operations on lists of todos, as values *)

Definition toggle (t : Todo) : Todo :=
  {| title := title t; user := user t; isDone := negb (isDone t) |}.

Definition assign (u : val) (t : Todo) : Todo :=
  {| title := title t; user := Some u; isDone := isDone t |}.

(** What a [map] whose callback edits the element at [idx] computes. *)
Fixpoint edit_from (g : Z → Todo → Todo) (index : Z) (L : list Todo)
    : list Todo :=
  match L with
  | [] => []
  | t :: rest => g index t :: edit_from g (index + 1) rest
  end.

Definition edit_at (e : Todo → Todo) (idx : Z) : Z → Todo → Todo :=
  λ index t, if bool_decide (index = idx) then e t else t.

(** What the [filter] of [REMOVE_TODO] computes. *)
Fixpoint remove_from (payload : val) (index : Z) (L : list Todo)
    : list Todo :=
  match L with
  | [] => []
  | t :: rest =>
      if negb (strict_eq (VNum index) payload)
      then t :: remove_from payload (index + 1) rest
      else remove_from payload (index + 1) rest
  end.

(** The tags the [switch] of the reducer has a case for. *)
Definition tags : list string := ["ADD_TODO"; "REMOVE_TODO"; "CHANGE_TODOS"].

(** The all-done flag in the words of the specification: the list is not
    empty and every element is done. *)
Definition allDone (L : list Todo) : bool :=
  bool_decide (0 < length L)%nat && forallb isDone L.

(** ** Sample stores *)

Fixpoint alloc_todos (h : heap) (L : list Todo) : heap * list val :=
  match L with
  | [] => (h, [])
  | t :: rest =>
      let '(h1, r) := alloc h (OObject (todo_obj t)) in
      let '(h2, rs) := alloc_todos h1 rest in
      (h2, VRef r :: rs)
  end.

(** A heap with a slice state whose list holds the todos [L]. *)
Definition store_of (L : list Todo) : heap * val :=
  let '(h1, vs) := alloc_todos ∅ L in
  let '(h2, arr) := alloc h1 (OArray vs) in
  let '(h3, s) := alloc h2 (OObject {["todos" := VRef arr]}) in
  (h3, VRef s).

Definition todo (s : string) (done : bool) : Todo :=
  {| title := s; user := None; isDone := done |}.

(** The action Redux dispatches when it creates the store. *)
Definition init_action : action :=
  {| type := "@@redux/INIT"; payload := VUndefined |}.

Definition sample_todos : list Todo := [todo "a" false; todo "b" true].
Definition sample_heap : heap := (store_of sample_todos).1.
Definition sample_state : val := (store_of sample_todos).2.

(** A todo object made by a caller, about to be added to the sample. *)
Definition sample_new : heap * loc :=
  alloc sample_heap (OObject (todo_obj (todo "c" false))).

(** The application right after the store is created: an empty draft and
    an input whose state was never set. *)
Definition initial_app : MainApp.app :=
  match reducer ∅ VUndefined init_action with
  | Ok (h, state) =>
      {| MainApp.mem := h; MainApp.list_state := state;
         MainApp.todoTitle := ""; MainApp.input := None |}
  | Throw =>
      {| MainApp.mem := ∅; MainApp.list_state := VUndefined;
         MainApp.todoTitle := ""; MainApp.input := None |}
  end.

(** The application after " x " has been typed into the fresh input. *)
Definition sample_app : MainApp.app :=
  match MainApp.change initial_app " x " with
  | Ok a => a
  | Throw => initial_app
  end.

(** The application after three blanks have been typed into the fresh
    input. *)
Definition blank_app : MainApp.app :=
  match MainApp.change initial_app "   " with
  | Ok a => a
  | Throw => initial_app
  end.

(** Type a draft, then press a key. *)
Definition type_then_key (draft : string) (keyCode : Z)
    : result MainApp.app :=
  a ← MainApp.change initial_app draft;
  MainApp.keyDown a keyCode.

(** ** Shapes of the state and of the input *)

(** The array a state holds as [todos], if it holds one, whatever the
    elements are. *)
Definition todos_array (h : heap) (state : val) : option (loc * list val) :=
  match select_todos h state with
  | Ok (VRef arr) =>
      match h !! arr with
      | Some (OArray elems) => Some (arr, elems)
      | _ => None
      end
  | _ => None
  end.

Definition has_todos_array (h : heap) (state : val) : bool :=
  match todos_array h state with
  | Some _ => true
  | None => false
  end.

Definition is_array (h : heap) (v : val) : bool :=
  match array_elems h v with
  | Ok _ => true
  | Throw => false
  end.

(** The draft in the state of the input, once set, is the draft in the
    state of [Index]. *)
Definition in_sync (a : MainApp.app) : bool :=
  match MainApp.input a with
  | None => true
  | Some st => bool_decide (InputNewTodo.value st = MainApp.todoTitle a)
  end.

(** A string of white space only. *)
Fixpoint blank (s : string) : bool :=
  match s with
  | EmptyString => true
  | String c rest => is_white_space c && blank rest
  end.

(** * Properties *)

(** ** The heap *)

Lemma alloc_eq (h : heap) (o : obj) :
  ∃ l, alloc h o = (<[l := o]> h, l) ∧ h !! l = None.
Proof.
  exists (fresh (dom h)). split; [done|].
  apply (not_elem_of_dom (D := gset loc)), is_fresh.
Qed.

#[global] Opaque alloc.

Lemma insert_fresh_subseteq (h : heap) (l : loc) (o : obj) :
  h !! l = None → h ⊆ <[l := o]> h.
Proof. apply insert_subseteq. Qed.

Lemma set_prop_insert (h : heap) (l : loc) (f : gmap string val) k v :
  set_prop (<[l := OObject f]> h) l k v = <[l := OObject (<[k := v]> f)]> h.
Proof. unfold set_prop. by rewrite lookup_insert_eq, insert_insert_eq. Qed.

(** ** Todos as objects *)

Lemma todo_obj_title t : todo_obj t !! "title" = Some (VStr (title t)).
Proof. unfold todo_obj. by destruct (user t). Qed.

Lemma todo_obj_isDone t : todo_obj t !! "isDone" = Some (VBool (isDone t)).
Proof. unfold todo_obj. by destruct (user t). Qed.

Lemma todo_obj_user t : todo_obj t !! "user" = user t.
Proof. unfold todo_obj. by destruct (user t). Qed.

Lemma decode_todo_obj t : decode (todo_obj t) = Some t.
Proof.
  unfold decode.
  rewrite todo_obj_title, todo_obj_isDone, todo_obj_user.
  destruct t as [s u b]; simpl. by rewrite decide_True.
Qed.

Lemma decode_Some fields t : decode fields = Some t → fields = todo_obj t.
Proof.
  unfold decode. intros H.
  destruct (fields !! "title") as [[| | s | |]|]; try done.
  destruct (fields !! "isDone") as [[| | | b |]|]; try done.
  case_decide; [|done]. by simplify_eq.
Qed.

Lemma read_todo_Some h v t :
  read_todo h v = Some t ↔
  ∃ l, v = VRef l ∧ h !! l = Some (OObject (todo_obj t)).
Proof.
  split.
  - destruct v as [| | | |l]; try done. simpl.
    destruct (h !! l) as [[|f]|] eqn:Hl; try done.
    intros ->%decode_Some. eauto.
  - intros (l & -> & Hl). simpl. rewrite Hl. apply decode_todo_obj.
Qed.

Lemma read_todo_weaken (h h' : heap) v t :
  h ⊆ h' → read_todo h v = Some t → read_todo h' v = Some t.
Proof.
  intros Hsub (l & -> & Hl)%read_todo_Some.
  apply read_todo_Some. exists l. split; [done|].
  by eapply lookup_weaken.
Qed.

Lemma todo_obj_toggle t :
  <["isDone" := VBool (negb (isDone t))]> (todo_obj t) = todo_obj (toggle t).
Proof.
  destruct t as [s [u|] b]; unfold todo_obj; simpl; apply map_eq; intros k;
    rewrite ?lookup_insert; repeat case_decide; simplify_eq; try done;
    by rewrite !lookup_singleton_ne.
Qed.

Lemma todo_obj_assign u t :
  <["user" := u]> (todo_obj t) = todo_obj (assign u t).
Proof.
  destruct t as [s [u'|] b]; unfold todo_obj; simpl; [|done].
  by rewrite insert_insert_eq.
Qed.

(** ** [map] with a callback that copies and edits *)

Section map_edit.
Variable f : heap → val → Z → result (heap * val).
Variable g : Z → Todo → Todo.

(** The callback puts the edited copy of its argument in a fresh cell. *)
Hypothesis f_edits : ∀ (h : heap) t index td,
  read_todo h t = Some td →
  ∃ res, f h t index
         = Ok (<[res := OObject (todo_obj (g index td))]> h, VRef res)
         ∧ h !! res = None.

Lemma map_from_edit (h0 h : heap) index elems L :
  h0 ⊆ h →
  Forall2 (λ v t, read_todo h0 v = Some t) elems L →
  ∃ h' rs, map_from f h index elems = Ok (h', rs) ∧ h ⊆ h' ∧
    Forall2 (λ v t, read_todo h' v = Some t) rs (edit_from g index L).
Proof.
  intros Hsub Hall. revert h index Hsub.
  induction Hall as [|v td elems L Hv _ IH]; intros h index Hsub.
  - exists h, []. simpl. repeat split; [done|constructor].
  - simpl.
    destruct (f_edits h v index td) as (res & Hf & Hres);
      [by eapply read_todo_weaken|].
    set (h1 := <[res := OObject (todo_obj (g index td))]> h) in *.
    assert (h ⊆ h1) as Hh1 by by apply insert_fresh_subseteq.
    destruct (IH h1 (index + 1)) as (h2 & rs & Hmap & Hh2 & Hrs);
      [by etrans|].
    exists h2, (VRef res :: rs). rewrite Hf. simpl. rewrite Hmap. simpl.
    split; [done|].
    split; [by etrans|]. constructor; [|done].
    apply (read_todo_weaken h1); [done|].
    apply read_todo_Some. exists res. split; [done|].
    apply lookup_insert_eq.
Qed.

Lemma array_map_edit (h : heap) arr L :
  read_todos h arr = Some L →
  ∃ h' l', array_map f h arr = Ok (h', VRef l') ∧ h ⊆ h' ∧
    h !! l' = None ∧ read_todos h' (VRef l') = Some (edit_from g 0 L).
Proof.
  destruct arr as [| | | |l]; try done. simpl.
  destruct (h !! l) as [[elems|]|] eqn:Hl; try done.
  intros Hall%mapM_Some.
  unfold array_map. simpl. rewrite Hl. simpl.
  destruct (map_from_edit h h 0 elems L) as (h1 & rs & -> & Hh1 & Hrs);
    [done..|].
  simpl. destruct (alloc_eq h1 (OArray rs)) as (l' & -> & Hl').
  exists (<[l' := OArray rs]> h1), l'. split; [done|].
  assert (h1 ⊆ <[l' := OArray rs]> h1) as Hh2
    by by apply insert_fresh_subseteq.
  split; [by etrans|]. split.
  - destruct (h !! l') eqn:E; [|done].
    eapply lookup_weaken in E; [|done]. congruence.
  - simpl. rewrite lookup_insert_eq. apply mapM_Some.
    eapply Forall2_impl; [done|]. intros ???.
    by eapply read_todo_weaken.
Qed.
End map_edit.

Lemma MainApp_callback_edits idx (h : heap) t index td :
  read_todo h t = Some td →
  ∃ res, MainApp.callback idx h t index
         = Ok (<[res := OObject (todo_obj (edit_at toggle idx index td))]> h,
               VRef res)
         ∧ h !! res = None.
Proof.
  intros (l & -> & Hl)%read_todo_Some.
  unfold MainApp.callback, edit_at. simpl. rewrite Hl.
  destruct (alloc_eq h (OObject (todo_obj td))) as (res & -> & Hres).
  exists res. split; [|done].
  case_bool_decide; [|done].
  simpl. rewrite lookup_insert_ne, Hl by congruence.
  rewrite todo_obj_isDone. simpl.
  by rewrite set_prop_insert, todo_obj_toggle.
Qed.

Lemma UserSelect_callback_edits idx value (h : heap) t index td :
  read_todo h t = Some td →
  ∃ res, UserSelect.callback idx value h t index
         = Ok (<[res := OObject
                   (todo_obj (edit_at (assign (VStr value)) idx index td))]> h,
               VRef res)
         ∧ h !! res = None.
Proof.
  intros (l & -> & Hl)%read_todo_Some.
  unfold UserSelect.callback, edit_at. simpl. rewrite Hl.
  destruct (alloc_eq h (OObject (todo_obj td))) as (res & -> & Hres).
  exists res. split; [|done].
  case_bool_decide; [|done].
  by rewrite set_prop_insert, todo_obj_assign.
Qed.

(** ** The edited and the filtered list *)

Lemma edit_from_out_of_range e idx k L :
  idx < k ∨ k + Z.of_nat (length L) ≤ idx →
  edit_from (edit_at e idx) k L = L.
Proof.
  revert k. induction L as [|t L IH]; intros k Hk; [done|].
  simpl in *. unfold edit_at at 1.
  rewrite bool_decide_eq_false_2 by lia.
  f_equal. apply IH. lia.
Qed.

Lemma edit_from_in_range e idx k L :
  k ≤ idx < k + Z.of_nat (length L) →
  edit_from (edit_at e idx) k L = alter e (Z.to_nat (idx - k)) L.
Proof.
  revert k. induction L as [|t L IH]; intros k Hk; simpl in *; [lia|].
  unfold edit_at at 1. case_bool_decide as Hidx.
  - subst. rewrite Z.sub_diag. simpl.
    f_equal. apply edit_from_out_of_range. lia.
  - replace (Z.to_nat (idx - k)) with (S (Z.to_nat (idx - (k + 1)))) by lia.
    simpl. f_equal. apply IH. lia.
Qed.

Lemma remove_from_out_of_range i k L :
  i < k ∨ k + Z.of_nat (length L) ≤ i → remove_from (VNum i) k L = L.
Proof.
  revert k. induction L as [|t L IH]; intros k Hk; [done|].
  simpl in *. unfold strict_eq.
  rewrite bool_decide_eq_false_2 by (intros [=]; lia).
  simpl. f_equal. apply IH. lia.
Qed.

Lemma remove_from_in_range i k L :
  k ≤ i < k + Z.of_nat (length L) →
  remove_from (VNum i) k L = delete (Z.to_nat (i - k)) L.
Proof.
  revert k. induction L as [|t L IH]; intros k Hk; simpl in *; [lia|].
  unfold strict_eq. case_bool_decide as Hi; simpl.
  - simplify_eq. rewrite Z.sub_diag. simpl.
    apply remove_from_out_of_range. lia.
  - assert (k ≠ i) by congruence.
    replace (Z.to_nat (i - k)) with (S (Z.to_nat (i - (k + 1)))) by lia.
    simpl. f_equal. apply IH. lia.
Qed.

Lemma list_delete_ge {A} (l : list A) (i : nat) :
  (length l ≤ i)%nat → delete i l = l.
Proof.
  revert i. induction l as [|x l IH]; intros [|i] Hi; simpl in *;
    [done|done|lia|].
  f_equal. apply IH. lia.
Qed.

Lemma filter_from_remove (R : val → Todo → Prop) payload k elems L :
  Forall2 R elems L →
  Forall2 R
    (filter_from (λ _ index, negb (strict_eq (VNum index) payload)) k elems)
    (remove_from payload k L).
Proof.
  intros Hall. revert k.
  induction Hall as [|v t elems L Hv _ IH]; intros k; simpl; [constructor|].
  destruct (negb _); [constructor|]; auto.
Qed.

(** ** The list a state holds *)

Lemma read_todos_weaken (h h' : heap) arr L :
  h ⊆ h' → read_todos h arr = Some L → read_todos h' arr = Some L.
Proof.
  intros Hsub. destruct arr as [| | | |l]; try done. simpl.
  destruct (h !! l) as [[elems|]|] eqn:Hl; try done.
  rewrite (lookup_weaken _ _ _ _ Hl Hsub).
  rewrite !mapM_Some. intros Hall.
  eapply Forall2_impl; [done|]. intros ???. by eapply read_todo_weaken.
Qed.

Lemma store_todos_Some (h : heap) state L :
  store_todos h state = Some L →
  ∃ s f arr, state = VRef s ∧ h !! s = Some (OObject f) ∧
    f !! "todos" = Some (VRef arr) ∧ read_todos h (VRef arr) = Some L.
Proof.
  unfold store_todos, select_todos.
  destruct state as [| | | |s]; try done. simpl.
  destruct (h !! s) as [[|f]|] eqn:Hs; try done.
  destruct (f !! "todos") as [[| | | |arr]|] eqn:Hf; try done.
  intros Harr. by exists s, f, arr.
Qed.

Lemma store_todos_VRef (h : heap) s f todos :
  h !! s = Some (OObject f) → f !! "todos" = Some todos →
  store_todos h (VRef s) = read_todos h todos.
Proof.
  intros Hs Hf. unfold store_todos, select_todos. simpl. by rewrite Hs, Hf.
Qed.

Lemma store_todos_weaken (h h' : heap) state L :
  h ⊆ h' → store_todos h state = Some L → store_todos h' state = Some L.
Proof.
  intros Hsub (s & f & arr & -> & Hs & Hf & Harr)%store_todos_Some.
  rewrite (store_todos_VRef h' s f (VRef arr)); [|by eapply lookup_weaken|done].
  by eapply read_todos_weaken.
Qed.

(** ** The cases of the reducer *)

Lemma not_tag (s : string) : bool_decide (s ∈ tags) = false → s ∉ tags.
Proof. apply bool_decide_eq_false. Qed.

Lemma reducer_default (h : heap) state a :
  state ≠ VUndefined → type a ∉ tags → reducer h state a = Ok (h, state).
Proof.
  intros Hst Htag. unfold tags in Htag.
  rewrite !not_elem_of_cons in Htag. destruct Htag as (H1 & H2 & H3 & _).
  unfold reducer. destruct state; try done;
    by rewrite !bool_decide_eq_false_2.
Qed.

Lemma reducer_ADD_TODO (h : heap) s f arr elems todo :
  h !! s = Some (OObject f) → f !! "todos" = Some (VRef arr) →
  h !! arr = Some (OArray elems) →
  reducer h (VRef s) {| type := "ADD_TODO"; payload := todo |}
  = Ok (<[arr := OArray (elems ++ [todo])]> h, VRef s).
Proof.
  intros Hs Hf Harr. unfold reducer. simpl.
  by rewrite Hs, Hf; simpl; rewrite Harr.
Qed.

Lemma reducer_CHANGE_TODOS (h : heap) s todos :
  ∃ s', reducer h (VRef s) {| type := "CHANGE_TODOS"; payload := todos |}
        = Ok (<[s' := OObject {["todos" := todos]}]> h, VRef s')
        ∧ h !! s' = None.
Proof.
  unfold reducer. simpl.
  destruct (alloc_eq h (OObject {["todos" := todos]})) as (s' & -> & Hs').
  by exists s'.
Qed.

Lemma reducer_REMOVE_TODO (h : heap) state L index :
  store_todos h state = Some L →
  ∃ h' state', reducer h state {| type := "REMOVE_TODO"; payload := index |}
               = Ok (h', state')
    ∧ h ⊆ h' ∧ store_todos h' state' = Some (remove_from index 0 L).
Proof.
  intros (s & f & arr & -> & Hs & Hf & Harr)%store_todos_Some.
  simpl in Harr. destruct (h !! arr) as [[elems|]|] eqn:Ha; try done.
  apply mapM_Some in Harr.
  unfold reducer. simpl. rewrite Hs, Hf.
  unfold array_filter. simpl. rewrite Ha. simpl.
  set (kept := filter_from _ 0 elems).
  destruct (alloc_eq h (OArray kept)) as (arr' & -> & Harr').
  set (h1 := <[arr' := OArray kept]> h).
  assert (h ⊆ h1) as Hh1 by by apply insert_fresh_subseteq.
  simpl. rewrite (lookup_weaken _ _ _ _ Hs Hh1).
  set (f' := <["todos" := VRef arr']> f).
  destruct (alloc_eq h1 (OObject f')) as (s' & -> & Hs').
  set (h2 := <[s' := OObject f']> h1).
  assert (h1 ⊆ h2) as Hh2 by by apply insert_fresh_subseteq.
  exists h2, (VRef s'). split; [done|]. split; [by etrans|].
  rewrite (store_todos_VRef h2 s' f' (VRef arr'));
    [|apply lookup_insert_eq|apply lookup_insert_eq].
  apply (read_todos_weaken h1); [done|].
  simpl. unfold h1 at 1. rewrite lookup_insert_eq. apply mapM_Some.
  apply filter_from_remove.
  eapply Forall2_impl; [done|]. intros ???. by eapply read_todo_weaken.
Qed.

(** ** Unrecognised tags and the initial state *)

(** C8: whatever slice state the store holds, an action whose tag is none
    of the tags the reducer has a case for is answered with that very
    state, and nothing on the heap is touched. *)
Theorem reducer_unrecognized_tag (h : heap) state a :
  state ≠ VUndefined → type a ∉ tags → reducer h state a = Ok (h, state).
Proof. apply reducer_default. Qed.

Lemma reducer_unrecognized_tag_witness :
  reducer (store_of [todo "a" false]).1 (store_of [todo "a" false]).2
    {| type := "TOGGLE_TODO"; payload := VNum 0 |}
  = Ok ((store_of [todo "a" false]).1, (store_of [todo "a" false]).2).
Proof.
  apply reducer_unrecognized_tag.
  - vm_compute. discriminate.
  - apply not_tag. vm_compute. reflexivity.
Defined.

(** C9: the [removeTodo] dispatcher of [MainApp] sends the tag
    [REMOVE_TODOS], for which the reducer has no case: the store keeps its
    state, so the list of todos is what it was, for every index. *)
Theorem removeTodo_leaves_list (h : heap) state index :
  state ≠ VUndefined →
  ("REMOVE_TODOS" ∉ tags) ∧ ("REMOVE_TODO" ∈ tags)
  ∧ MainApp.removeTodo h state index = Ok (h, state).
Proof.
  intros Hst.
  assert ("REMOVE_TODOS" ∉ tags) as Htag
    by (apply not_tag; vm_compute; reflexivity).
  split; [done|]. split; [unfold tags; set_solver|].
  by apply reducer_default.
Qed.

Lemma removeTodo_leaves_list_witness :
  ("REMOVE_TODOS" ∉ tags) ∧ ("REMOVE_TODO" ∈ tags)
  ∧ MainApp.removeTodo (store_of [todo "a" false]).1
      (store_of [todo "a" false]).2 0
    = Ok ((store_of [todo "a" false]).1, (store_of [todo "a" false]).2).
Proof.
  apply removeTodo_leaves_list. vm_compute. discriminate.
Defined.

(** C10: called with an [undefined] state, as when the store is created,
    the reducer answers an action it has no case for with a fresh state
    [{todos: []}]: the application starts with an empty list. *)
Theorem reducer_undefined_state (h : heap) a :
  type a ∉ tags →
  ∃ h' s arr, reducer h VUndefined a = Ok (h', VRef s)
    ∧ h' !! s = Some (OObject {["todos" := VRef arr]})
    ∧ h' !! arr = Some (OArray [])
    ∧ h ⊆ h'
    ∧ store_todos h' (VRef s) = Some [].
Proof.
  intros Htag. unfold tags in Htag.
  rewrite !not_elem_of_cons in Htag. destruct Htag as (H1 & H2 & H3 & _).
  unfold reducer.
  destruct (alloc_eq h (OArray [])) as (arr & -> & Harr).
  set (h1 := <[arr := OArray []]> h).
  destruct (alloc_eq h1 (OObject {["todos" := VRef arr]})) as (s & -> & Hs).
  set (h2 := <[s := _]> h1).
  rewrite !bool_decide_eq_false_2 by done.
  assert (h1 ⊆ h2) as Hh2 by by apply insert_fresh_subseteq.
  assert (h2 !! arr = Some (OArray [])) as Harr2.
  { eapply lookup_weaken; [|done]. apply lookup_insert_eq. }
  exists h2, s, arr. split; [done|].
  split; [apply lookup_insert_eq|]. split; [done|].
  split; [etrans; [|done]; by apply insert_fresh_subseteq|].
  rewrite (store_todos_VRef h2 s {["todos" := VRef arr]} (VRef arr));
    [|apply lookup_insert_eq|done].
  simpl. by rewrite Harr2.
Qed.

Lemma reducer_undefined_state_witness :
  ∃ h' s arr, reducer ∅ VUndefined init_action = Ok (h', VRef s)
    ∧ h' !! s = Some (OObject {["todos" := VRef arr]})
    ∧ h' !! arr = Some (OArray [])
    ∧ ∅ ⊆ h'
    ∧ store_todos h' (VRef s) = Some [].
Proof.
  apply reducer_undefined_state.
  apply not_tag. vm_compute. reflexivity.
Defined.

(** ** Toggle, assign and remove on a well-formed store *)

Lemma toggleAt_spec (h : heap) state L idx :
  store_todos h state = Some L →
  ∃ h' state', toggleAt h state idx = Ok (h', state') ∧ h ⊆ h'
    ∧ store_todos h' state' = Some (edit_from (edit_at toggle idx) 0 L)
    ∧ ∃ l', select_todos h' state' = Ok (VRef l') ∧ h !! l' = None.
Proof.
  intros (s & f & arr & -> & Hs & Hf & Harr)%store_todos_Some.
  unfold toggleAt, select_todos. simpl. rewrite Hs, Hf. simpl.
  unfold MainApp.onChange.
  destruct (array_map_edit _ _ (MainApp_callback_edits idx) h (VRef arr) L)
    as (h1 & l' & -> & Hh1 & Hl' & Hread); [done|].
  simpl. unfold MainApp.changeTodo, dispatch.
  destruct (reducer_CHANGE_TODOS h1 s (VRef l')) as (s' & -> & Hs').
  set (h2 := <[s' := _]> h1).
  assert (h1 ⊆ h2) as Hh2 by by apply insert_fresh_subseteq.
  exists h2, (VRef s'). split; [done|]. split; [by etrans|].
  rewrite (store_todos_VRef h2 s' {["todos" := VRef l']} (VRef l'));
    [|apply lookup_insert_eq|done].
  split; [by eapply read_todos_weaken|].
  exists l'. split; [|done].
  unfold h2. simpl. by rewrite lookup_insert_eq.
Qed.

Lemma assignAt_spec (h : heap) state L idx value :
  store_todos h state = Some L →
  ∃ h', assignAt h state idx value = Ok (h', state) ∧ h ⊆ h'
    ∧ store_todos h' state = Some L.
Proof.
  intros HL.
  destruct (store_todos_Some _ _ _ HL) as (s & f & arr & -> & Hs & Hf & Harr).
  unfold assignAt, select_todos. simpl. rewrite Hs, Hf. simpl.
  unfold UserSelect.handleChange.
  destruct (array_map_edit _ _ (UserSelect_callback_edits idx value)
              h (VRef arr) L) as (h1 & l' & -> & Hh1 & Hl' & Hread); [done|].
  simpl. unfold dispatch. rewrite reducer_default;
    [|done|apply not_tag; vm_compute; reflexivity].
  exists h1. split; [done|]. split; [done|].
  by eapply store_todos_weaken.
Qed.

Lemma removeAt_spec (h : heap) state L index :
  store_todos h state = Some L →
  ∃ h' state', removeAt h state index = Ok (h', state') ∧ h ⊆ h'
    ∧ store_todos h' state' = Some (remove_from (VNum index) 0 L).
Proof. apply reducer_REMOVE_TODO. Qed.

(** C5: for an index within the list, the checkbox handler commits a list
    that differs from the list [L] of the store only in that the todo at
    the index has its [isDone] negated.  Every cell of the old heap is
    still there with its old content: [L] and its elements read as
    before, through the old state. *)
Theorem toggleAt_flips_only_index (h : heap) state L i :
  store_todos h state = Some L →
  0 ≤ i < Z.of_nat (length L) →
  ∃ h' state', toggleAt h state i = Ok (h', state')
    ∧ store_todos h' state' = Some (alter toggle (Z.to_nat i) L)
    ∧ h ⊆ h'
    ∧ store_todos h' state = Some L.
Proof.
  intros HL Hi.
  destruct (toggleAt_spec h state L i HL)
    as (h' & state' & Hrun & Hsub & Hnew & _).
  exists h', state'. split; [done|]. split.
  - rewrite Hnew. f_equal.
    rewrite edit_from_in_range by lia. by rewrite Z.sub_0_r.
  - split; [done|]. by eapply store_todos_weaken.
Qed.

Lemma toggleAt_flips_only_index_witness :
  ∃ h' state',
    toggleAt (store_of [todo "a" false; todo "b" true]).1
      (store_of [todo "a" false; todo "b" true]).2 1
    = Ok (h', state')
    ∧ store_todos h' state'
      = Some (alter toggle (Z.to_nat 1) [todo "a" false; todo "b" true])
    ∧ (store_of [todo "a" false; todo "b" true]).1 ⊆ h'
    ∧ store_todos h' (store_of [todo "a" false; todo "b" true]).2
      = Some [todo "a" false; todo "b" true].
Proof.
  apply toggleAt_flips_only_index.
  - vm_compute. reflexivity.
  - simpl. lia.
Defined.

(** C6: with an index outside the list, toggling, assigning and removing
    all return normally and leave a list equal to the list [L] of the
    store; and removing twice at an index that was valid returns normally
    both times, the second removal changing nothing when the first one
    has shortened the list below the index. *)
Theorem out_of_range_is_noop (h : heap) state L i :
  store_todos h state = Some L →
  i < 0 ∨ Z.of_nat (length L) ≤ i →
  (∃ h' state', toggleAt h state i = Ok (h', state')
     ∧ store_todos h' state' = Some L)
  ∧ (∀ value, ∃ h' state', assignAt h state i value = Ok (h', state')
     ∧ store_todos h' state' = Some L)
  ∧ (∃ h' state', removeAt h state i = Ok (h', state')
     ∧ store_todos h' state' = Some L)
  ∧ (∀ j, 0 ≤ j < Z.of_nat (length L) →
     ∃ h1 state1 h2 state2,
       removeAt h state j = Ok (h1, state1)
       ∧ store_todos h1 state1 = Some (delete (Z.to_nat j) L)
       ∧ removeAt h1 state1 j = Ok (h2, state2)
       ∧ store_todos h2 state2
         = Some (delete (Z.to_nat j) (delete (Z.to_nat j) L))
       ∧ (j = Z.of_nat (length L) - 1 →
          store_todos h2 state2 = store_todos h1 state1)).
Proof.
  intros HL Hi. repeat split.
  - destruct (toggleAt_spec h state L i HL)
      as (h' & state' & Hrun & _ & Hnew & _).
    exists h', state'. split; [done|].
    rewrite Hnew, edit_from_out_of_range; [done|lia].
  - intros value.
    destruct (assignAt_spec h state L i value HL) as (h' & Hrun & _ & Hnew).
    by exists h', state.
  - destruct (removeAt_spec h state L i HL)
      as (h' & state' & Hrun & _ & Hnew).
    exists h', state'. split; [done|].
    rewrite Hnew, remove_from_out_of_range; [done|lia].
  - intros j Hj.
    destruct (removeAt_spec h state L j HL)
      as (h1 & state1 & Hrun1 & _ & Hnew1).
    rewrite remove_from_in_range, Z.sub_0_r in Hnew1 by lia.
    destruct (removeAt_spec h1 state1 _ j Hnew1)
      as (h2 & state2 & Hrun2 & _ & Hnew2).
    assert (length (delete (Z.to_nat j) L) = pred (length L)) as Hlen.
    { rewrite length_delete; [lia|]. apply lookup_lt_is_Some. lia. }
    exists h1, state1, h2, state2. repeat split; try done.
    + rewrite Hnew2. f_equal.
      destruct (decide (j = Z.of_nat (length L) - 1)) as [->|].
      * rewrite remove_from_out_of_range by lia.
        symmetry. apply list_delete_ge. lia.
      * rewrite remove_from_in_range by lia. by rewrite Z.sub_0_r.
    + intros ->. rewrite Hnew2, Hnew1.
      rewrite remove_from_out_of_range; [done|lia].
Qed.

Lemma out_of_range_is_noop_witness :
  ∃ h' state', removeAt sample_heap sample_state 2 = Ok (h', state')
    ∧ store_todos h' state' = Some sample_todos.
Proof.
  destruct (out_of_range_is_noop sample_heap sample_state sample_todos 2)
    as (_ & _ & Hremove & _).
  - vm_compute. reflexivity.
  - right. simpl. lia.
  - exact Hremove.
Defined.

(** ** Adding a todo *)

(** C1: on the sample store, [ADD_TODO] returns the state object it was
    given, holding the array it held; that array, which a consumer may
    still hold as the previous list, has the todo appended in place, so
    the previous snapshot has changed and no new list exists. *)
Theorem addTodo_mutates_held_list :
  ∃ todos h',
    select_todos sample_new.1 sample_state = Ok todos
    ∧ read_todos sample_new.1 todos = Some sample_todos
    ∧ MainApp.addTodo sample_new.1 sample_state (VRef sample_new.2)
      = Ok (h', sample_state)
    ∧ select_todos h' sample_state = Ok todos
    ∧ read_todos h' todos = Some (sample_todos ++ [todo "c" false])%list.
Proof.
  exists (VRef 3%positive),
    (<[3%positive := OArray [VRef 1; VRef 2; VRef 5]%positive]> sample_new.1).
  repeat split; vm_compute; reflexivity.
Qed.

(** ** The all-done flag *)

Lemma allTodosIsDone_from_last (h : heap) flag elems L :
  Forall2 (λ v t, read_todo h v = Some t) elems L →
  MainApp.allTodosIsDone_from h flag elems
  = Ok (from_option isDone flag (last L)).
Proof.
  intros Hall. revert flag.
  induction Hall as [|v t elems L Hv Hall IH]; intros flag; [done|].
  apply read_todo_Some in Hv as (l & -> & Hl).
  simpl. rewrite Hl, todo_obj_isDone. simpl. rewrite IH.
  destruct Hall as [|v' t' elems L _ _]; [simpl; by destruct (isDone t)|].
  change (last (t :: t' :: L)) with (last (t' :: L)).
  destruct (last (t' :: L)) eqn:Hlast; [done|].
  by apply last_None in Hlast.
Qed.

(** What [render] computes is the [isDone] of the last todo, and [true]
    for the empty list. *)
Lemma allTodosIsDone_last (h : heap) todos L :
  read_todos h todos = Some L →
  MainApp.allTodosIsDone h todos = Ok (from_option isDone true (last L)).
Proof.
  destruct todos as [| | | |l]; try done. simpl.
  destruct (h !! l) as [[elems|]|] eqn:Hl; try done.
  intros Hall%mapM_Some. unfold MainApp.allTodosIsDone. simpl.
  rewrite Hl. simpl. by apply allTodosIsDone_from_last.
Qed.

(** C2: the flag [render] computes is [true] on the empty list and on a
    list whose first todo is open and whose last is done, where the
    conjunction over a non-empty list is [false]; and swapping the two
    todos changes the flag. *)
Theorem allDoneFlag_overwrites :
  allDoneFlag (store_of []).1 (store_of []).2 = Ok true
  ∧ allDone [] = false
  ∧ allDoneFlag (store_of [todo "a" false; todo "b" true]).1
      (store_of [todo "a" false; todo "b" true]).2 = Ok true
  ∧ allDone [todo "a" false; todo "b" true] = false
  ∧ allDoneFlag (store_of [todo "b" true; todo "a" false]).1
      (store_of [todo "b" true; todo "a" false]).2 = Ok false.
Proof. repeat split; vm_compute; reflexivity. Qed.

(** ** The input *)

(** Before anything is typed [this.state] is unset, and Enter makes the
    handler raise before it calls any of its props. *)
Lemma handleKeyDown_unset_state (h : heap) :
  InputNewTodo.handleKeyDown h None 13 = Throw.
Proof. done. Qed.

(** The runs agree with [handleKeyDown] and [keyDown]: they return the
    same heap, calls and application when the handler returns, and end
    in [Raised] exactly when it raises. *)
Lemma handleKeyDown_run_agrees (h : heap) state keyCode :
  InputNewTodo.handleKeyDown h state keyCode
  = match InputNewTodo.handleKeyDown_run h state keyCode with
    | (h1, cs, InputNewTodo.Returned) => Ok (h1, cs)
    | (_, _, InputNewTodo.Raised) => Throw
    end.
Proof.
  unfold InputNewTodo.handleKeyDown, InputNewTodo.handleKeyDown_run.
  case_bool_decide; [done|]. destruct state as [st|]; [|done].
  destruct (truthy _); [|done].
  match goal with |- context [alloc ?m ?o] =>
    destruct (alloc_eq m o) as (l & -> & _) end.
  done.
Qed.

Lemma handle_all_run_agrees (a : MainApp.app) cs :
  MainApp.handle_all a cs
  = match MainApp.handle_all_run a cs with
    | (a1, InputNewTodo.Returned) => Ok a1
    | (_, InputNewTodo.Raised) => Throw
    end.
Proof.
  revert a. induction cs as [|c cs IH]; intros a; simpl; [done|].
  destruct (MainApp.handle a c) as [a1|]; simpl; [apply IH|done].
Qed.

Lemma keyDown_run_agrees (a : MainApp.app) keyCode :
  MainApp.keyDown a keyCode
  = match MainApp.keyDown_run a keyCode with
    | (a1, InputNewTodo.Returned) => Ok a1
    | (_, InputNewTodo.Raised) => Throw
    end.
Proof.
  unfold MainApp.keyDown, MainApp.keyDown_run.
  rewrite handleKeyDown_run_agrees.
  destruct (InputNewTodo.handleKeyDown_run _ _ _) as [[h1 cs] c].
  destruct c; simpl.
  - rewrite handle_all_run_agrees.
    by destruct (MainApp.handle_all_run _ cs) as [a1 []].
  - by destruct (MainApp.handle_all_run _ cs) as [a1 []].
Qed.

(** C7: when the draft the handler reads, [this.state.value], trims to
    the empty string, and also on the fresh page, where the input shows
    the empty draft and [this.state] was never set, a key press makes
    the input call neither [onSubmit] nor [onChange] and leaves the heap
    alone: nothing is added, and the application, both copies of the
    draft included, is exactly what it was, whether the handler returns
    or raises.  It returns whenever [this.state] is set. *)
Theorem keyDown_blank_draft (a : MainApp.app) (keyCode : Z) :
  (∀ st, MainApp.input a = Some st → trim (InputNewTodo.value st) = "") →
  (InputNewTodo.handleKeyDown_run (MainApp.mem a) (MainApp.input a)
     keyCode).1 = (MainApp.mem a, [])
  ∧ (MainApp.keyDown_run a keyCode).1 = a
  ∧ (is_Some (MainApp.input a) →
     InputNewTodo.handleKeyDown (MainApp.mem a) (MainApp.input a) keyCode
     = Ok (MainApp.mem a, [])
     ∧ MainApp.keyDown a keyCode = Ok a).
Proof.
  intros Hblank.
  assert (∃ c,
    InputNewTodo.handleKeyDown_run (MainApp.mem a) (MainApp.input a) keyCode
    = (MainApp.mem a, [], c)
    ∧ (is_Some (MainApp.input a) → c = InputNewTodo.Returned))
    as (c & Hrun & Hc).
  { unfold InputNewTodo.handleKeyDown_run.
    case_bool_decide; [by eexists|].
    destruct (MainApp.input a) as [st|] eqn:Hin.
    - rewrite (Hblank st eq_refl). simpl. by eexists.
    - eexists. split; [done|]. by intros [? [=]]. }
  assert ((MainApp.keyDown_run a keyCode).1 = a) as Happ.
  { unfold MainApp.keyDown_run. rewrite Hrun. simpl. by destruct a. }
  split; [by rewrite Hrun|]. split; [done|].
  intros Hset. specialize (Hc Hset). subst c. split.
  - by rewrite handleKeyDown_run_agrees, Hrun.
  - rewrite keyDown_run_agrees.
    unfold MainApp.keyDown_run in *. rewrite Hrun in *. simpl in *.
    by rewrite Happ.
Qed.

Lemma keyDown_blank_draft_witness :
  ((InputNewTodo.handleKeyDown_run (MainApp.mem initial_app)
      (MainApp.input initial_app) 13).1 = (MainApp.mem initial_app, [])
   ∧ (MainApp.keyDown_run initial_app 13).1 = initial_app
   ∧ (is_Some (MainApp.input initial_app) →
      InputNewTodo.handleKeyDown (MainApp.mem initial_app)
        (MainApp.input initial_app) 13
      = Ok (MainApp.mem initial_app, [])
      ∧ MainApp.keyDown initial_app 13 = Ok initial_app))
  ∧ ((InputNewTodo.handleKeyDown_run (MainApp.mem blank_app)
        (MainApp.input blank_app) 13).1 = (MainApp.mem blank_app, [])
     ∧ (MainApp.keyDown_run blank_app 13).1 = blank_app
     ∧ (is_Some (MainApp.input blank_app) →
        InputNewTodo.handleKeyDown (MainApp.mem blank_app)
          (MainApp.input blank_app) 13
        = Ok (MainApp.mem blank_app, [])
        ∧ MainApp.keyDown blank_app 13 = Ok blank_app)).
Proof.
  split.
  - apply (keyDown_blank_draft initial_app 13).
    intros st Hst. vm_compute in Hst. discriminate.
  - apply (keyDown_blank_draft blank_app 13).
    intros st Hst. vm_compute in Hst. injection Hst as <-.
    vm_compute. reflexivity.
Defined.

(** With a draft that does not trim to the empty string, Enter submits
    one todo, whose title is the draft as typed, and resets the draft. *)
Lemma handleKeyDown_confirm (h : heap) draft :
  trim draft ≠ "" →
  ∃ l, InputNewTodo.handleKeyDown h
         (Some {| InputNewTodo.value := draft |}) 13
       = Ok (<[l := OObject (todo_obj (todo draft false))]> h,
             [InputNewTodo.onSubmit (VRef l); InputNewTodo.onChange ""])
       ∧ h !! l = None.
Proof.
  intros Hdraft. unfold InputNewTodo.handleKeyDown. simpl.
  rewrite bool_decide_eq_false_2 by done. simpl.
  destruct (alloc_eq h (OObject (todo_obj (todo draft false))))
    as (l & Hl & Hfresh).
  exists l. split; [|done]. unfold todo_obj in Hl. simpl in Hl. by rewrite Hl.
Qed.

(** C3: typing the draft "  Buy milk  " and pressing Enter stores a todo
    whose title is the draft with its blanks, not the trimmed "Buy milk";
    the draft is reset. *)
Theorem keyDown_submits_untrimmed_title :
  (a ← type_then_key "  Buy milk  " 13;
   Ok (store_todos (MainApp.mem a) (MainApp.list_state a),
       MainApp.todoTitle a))
  = Ok (Some [todo "  Buy milk  " false], "")
  ∧ trim "  Buy milk  " = "Buy milk".
Proof. split; vm_compute; reflexivity. Qed.

(** ** Assigning a user *)

(** C4: choosing the user "3" for the first todo of the sample store
    leaves the store with the state and the list it had, the todo still
    without a user; and the list that [handleChange] sent along holds the
    user as the string "3", not the number 3. *)
Theorem assignAt_not_committed :
  (r ← assignAt sample_heap sample_state 0 "3";
   Ok (r.2, store_todos r.1 r.2))
  = Ok (sample_state, Some sample_todos)
  ∧ (todos ← select_todos sample_heap sample_state;
     r ← array_map (UserSelect.callback 0 "3") sample_heap todos;
     Ok (read_todos r.1 r.2))
    = Ok (Some [assign (VStr "3") (todo "a" false); todo "b" true])
  ∧ assign (VStr "3") (todo "a" false) ≠ assign (VNum 3) (todo "a" false).
Proof. repeat split; [vm_compute; reflexivity..|done]. Qed.

(** * Further properties of the reducer *)

Lemma reducer_undefined (h : heap) a :
  ∃ arr s, h !! arr = None ∧ <[arr := OArray []]> h !! s = None
    ∧ reducer h VUndefined a
      = reducer (<[s := OObject {["todos" := VRef arr]}]>
                   (<[arr := OArray []]> h)) (VRef s) a.
Proof.
  destruct (alloc_eq h (OArray [])) as (arr & Harr & Hfresh).
  destruct (alloc_eq (<[arr := OArray []]> h)
              (OObject {["todos" := VRef arr]})) as (s & Hs & Hfresh').
  exists arr, s. split; [done|]. split; [done|].
  unfold reducer. by rewrite Harr, Hs.
Qed.

Lemma reducer_CHANGE_defined (h : heap) state todos :
  state ≠ VUndefined →
  ∃ s', reducer h state {| type := "CHANGE_TODOS"; payload := todos |}
        = Ok (<[s' := OObject {["todos" := todos]}]> h, VRef s')
        ∧ h !! s' = None.
Proof.
  intros Hst.
  destruct (alloc_eq h (OObject {["todos" := todos]})) as (s' & Hs' & Hfresh).
  exists s'. split; [|done].
  unfold reducer. destruct state; try done; simpl; by rewrite Hs'.
Qed.

Lemma reducer_REMOVE_raw (h : heap) s f arr elems p :
  h !! s = Some (OObject f) → f !! "todos" = Some (VRef arr) →
  h !! arr = Some (OArray elems) →
  ∃ arr' s',
    reducer h (VRef s) {| type := "REMOVE_TODO"; payload := p |}
    = Ok (<[s' := OObject (<["todos" := VRef arr']> f)]>
            (<[arr' := OArray
                 (filter_from (λ _ index, negb (strict_eq (VNum index) p))
                    0 elems)]> h),
          VRef s')
    ∧ h !! arr' = None ∧ h !! s' = None ∧ s' ≠ arr'.
Proof.
  intros Hs Hf Ha. unfold reducer. simpl. rewrite Hs, Hf.
  unfold array_filter. simpl. rewrite Ha. simpl.
  set (kept := filter_from _ 0 elems).
  destruct (alloc_eq h (OArray kept)) as (arr' & -> & Harr').
  simpl. rewrite lookup_insert_ne, Hs by congruence.
  set (f' := <["todos" := VRef arr']> f).
  destruct (alloc_eq (<[arr' := OArray kept]> h) (OObject f'))
    as (s' & -> & Hs').
  exists arr', s'. split; [done|]. split; [done|].
  destruct (decide (s' = arr')) as [->|Hne].
  - by rewrite lookup_insert_eq in Hs'.
  - by rewrite lookup_insert_ne in Hs'.
Qed.

Lemma read_todo_insert_array (h : heap) arr elems elems' v t :
  h !! arr = Some (OArray elems) → read_todo h v = Some t →
  read_todo (<[arr := OArray elems']> h) v = Some t.
Proof.
  intros Ha (l & -> & Hl)%read_todo_Some.
  apply read_todo_Some. exists l. split; [done|].
  rewrite lookup_insert_ne; [done|congruence].
Qed.

Lemma remove_from_non_number p k L :
  (∀ n, p ≠ VNum n) → remove_from p k L = L.
Proof.
  intros Hp. revert k. induction L as [|t L IH]; intros k; [done|].
  simpl. unfold strict_eq. rewrite bool_decide_eq_false_2 by (intros <-; by eapply Hp).
  simpl. by rewrite IH.
Qed.

Lemma addTodo_spec (h : heap) state L p t :
  store_todos h state = Some L → read_todo h p = Some t →
  ∃ arr elems, h !! arr = Some (OArray elems)
    ∧ select_todos h state = Ok (VRef arr)
    ∧ MainApp.addTodo h state p
      = Ok (<[arr := OArray (elems ++ [p])]> h, state)
    ∧ store_todos (<[arr := OArray (elems ++ [p])]> h) state
      = Some (L ++ [t])%list.
Proof.
  intros (s & f & arr & -> & Hs & Hf & Harr)%store_todos_Some Hp.
  simpl in Harr. destruct (h !! arr) as [[elems|]|] eqn:Ha; try done.
  apply mapM_Some in Harr.
  exists arr, elems. split; [done|]. split.
  { unfold select_todos. simpl. by rewrite Hs, Hf. }
  split; [by eapply reducer_ADD_TODO|].
  rewrite (store_todos_VRef _ s f (VRef arr)); [| |done].
  - simpl. rewrite lookup_insert_eq. apply mapM_Some.
    apply Forall2_app.
    + eapply Forall2_impl; [done|]. intros ???.
      by eapply read_todo_insert_array.
    + constructor; [|constructor]. by eapply read_todo_insert_array.
  - rewrite lookup_insert_ne; [done|congruence].
Qed.

(** X1: [REMOVE_TODO] with an index inside the list commits the list
    without the todo at that index, in a new state; the state and the
    list that were there before read as before. *)
Theorem removeAt_deletes_index (h : heap) state L i :
  store_todos h state = Some L →
  0 ≤ i < Z.of_nat (length L) →
  ∃ h' state', removeAt h state i = Ok (h', state')
    ∧ store_todos h' state' = Some (delete (Z.to_nat i) L)
    ∧ h ⊆ h'
    ∧ store_todos h' state = Some L
    ∧ state' ≠ state.
Proof.
  intros HL Hi.
  destruct (removeAt_spec h state L i HL) as (h' & state' & Hrun & Hsub & Hnew).
  rewrite remove_from_in_range, Z.sub_0_r in Hnew by lia.
  assert (store_todos h' state = Some L) as Hold
    by by eapply store_todos_weaken.
  exists h', state'. repeat split; try done.
  intros ->. rewrite Hold in Hnew. simplify_eq.
  apply (f_equal length) in Hnew. rewrite length_delete in Hnew; [lia|].
  apply lookup_lt_is_Some. lia.
Qed.

Lemma removeAt_deletes_index_witness :
  ∃ h' state', removeAt sample_heap sample_state 0 = Ok (h', state')
    ∧ store_todos h' state' = Some (delete (Z.to_nat 0) sample_todos)
    ∧ sample_heap ⊆ h'
    ∧ store_todos h' sample_state = Some sample_todos
    ∧ state' ≠ sample_state.
Proof.
  apply removeAt_deletes_index.
  - vm_compute. reflexivity.
  - simpl. lia.
Defined.

(** X2: the [filter] of [REMOVE_TODO] compares with [!==], so a payload
    that is not a number (the string "0", [undefined]) matches no index:
    the list committed is equal to the list that was there. *)
Theorem REMOVE_TODO_needs_a_number (h : heap) state L p :
  store_todos h state = Some L →
  (∀ n, p ≠ VNum n) →
  ∃ h' state',
    reducer h state {| type := "REMOVE_TODO"; payload := p |}
    = Ok (h', state')
    ∧ store_todos h' state' = Some L.
Proof.
  intros HL Hp.
  destruct (reducer_REMOVE_TODO h state L p HL)
    as (h' & state' & Hrun & _ & Hnew).
  exists h', state'. split; [done|].
  by rewrite Hnew, remove_from_non_number.
Qed.

Lemma REMOVE_TODO_needs_a_number_witness :
  ∃ h' state',
    reducer sample_heap sample_state
      {| type := "REMOVE_TODO"; payload := VStr "0" |}
    = Ok (h', state')
    ∧ store_todos h' state' = Some sample_todos.
Proof.
  apply REMOVE_TODO_needs_a_number.
  - vm_compute. reflexivity.
  - discriminate.
Defined.

Lemma changeTodo_spec (h : heap) state p :
  ∃ h' s', MainApp.changeTodo h state p = Ok (h', VRef s')
    ∧ h ⊆ h' ∧ h !! s' = None
    ∧ h' !! s' = Some (OObject {["todos" := p]})
    ∧ select_todos h' (VRef s') = Ok p
    ∧ ∀ L, read_todos h p = Some L → store_todos h' (VRef s') = Some L.
Proof.
  assert (∀ (h0 : heap) st, h ⊆ h0 → st ≠ VUndefined →
    ∃ h' s', reducer h0 st {| type := "CHANGE_TODOS"; payload := p |}
             = Ok (h', VRef s')
      ∧ h ⊆ h' ∧ h !! s' = None
      ∧ h' !! s' = Some (OObject {["todos" := p]})) as Hdefined.
  { intros h0 st Hsub Hst.
    destruct (reducer_CHANGE_defined h0 st p Hst) as (s' & -> & Hs').
    eexists _, s'. split; [done|].
    split; [etrans; [done|]; by apply insert_fresh_subseteq|].
    split; [|apply lookup_insert_eq].
    destruct (h !! s') eqn:E; [|done].
    eapply lookup_weaken in E; [|done]. congruence. }
  assert (∃ h' s', MainApp.changeTodo h state p = Ok (h', VRef s')
      ∧ h ⊆ h' ∧ h !! s' = None
      ∧ h' !! s' = Some (OObject {["todos" := p]}))
    as (h' & s' & Hrun & Hsub & Hfresh & Hs').
  { unfold MainApp.changeTodo, dispatch.
    destruct (decide (state = VUndefined)) as [->|Hst]; [|by apply Hdefined].
    destruct (reducer_undefined h {| type := "CHANGE_TODOS"; payload := p |})
      as (arr & s & Harr & Hs & ->).
    apply Hdefined; [|done].
    etrans; by apply insert_fresh_subseteq. }
  exists h', s'. repeat split; try done.
  - unfold select_todos. simpl. rewrite Hs'. simpl.
    by rewrite lookup_singleton_eq.
  - intros L HL.
    rewrite (store_todos_VRef h' s' {["todos" := p]} p);
      [|done|apply lookup_singleton_eq].
    by eapply read_todos_weaken.
Qed.

(** X3: [CHANGE_TODOS] never raises, whatever the state and the payload:
    it returns a new state object whose only property is [todos], holding
    the payload itself (the caller's array, not a copy), and touches no
    cell that existed.  Committing a list of todos thus yields a state
    with an equal list. *)
Theorem changeTodo_installs_payload (h : heap) state p :
  ∃ h' s', MainApp.changeTodo h state p = Ok (h', VRef s')
    ∧ h ⊆ h' ∧ h !! s' = None
    ∧ h' !! s' = Some (OObject {["todos" := p]})
    ∧ select_todos h' (VRef s') = Ok p
    ∧ ∀ L, read_todos h p = Some L → store_todos h' (VRef s') = Some L.
Proof. apply changeTodo_spec. Qed.

(** X4: on a store holding the todos [L], [ADD_TODO] with a todo object
    returns normally with the state it was given, whose list then reads
    [L] followed by the new todo; the only cell of the heap it changes is
    the array of the list. *)
Theorem addTodo_appends (h : heap) state L p t :
  store_todos h state = Some L →
  read_todo h p = Some t →
  ∃ h' arr, MainApp.addTodo h state p = Ok (h', state)
    ∧ select_todos h state = Ok (VRef arr)
    ∧ store_todos h' state = Some (L ++ [t])%list
    ∧ ∀ l, l ≠ arr → h' !! l = h !! l.
Proof.
  intros HL Hp.
  destruct (addTodo_spec h state L p t HL Hp)
    as (arr & elems & Ha & Hsel & Hrun & Hnew).
  eexists _, arr. split; [done|]. split; [done|]. split; [done|].
  intros l Hl. by rewrite lookup_insert_ne.
Qed.

Lemma addTodo_appends_witness :
  ∃ h' arr,
    MainApp.addTodo sample_new.1 sample_state (VRef sample_new.2)
    = Ok (h', sample_state)
    ∧ select_todos sample_new.1 sample_state = Ok (VRef arr)
    ∧ store_todos h' sample_state
      = Some (sample_todos ++ [todo "c" false])%list
    ∧ ∀ l, l ≠ arr → h' !! l = sample_new.1 !! l.
Proof.
  apply addTodo_appends; vm_compute; reflexivity.
Defined.

(** X5: adding a todo and then removing at the index it was given (the
    old length of the list) commits a list equal to the one the store
    started with. *)
Theorem add_then_remove_last (h : heap) state L p t :
  store_todos h state = Some L →
  read_todo h p = Some t →
  ∃ h1 h2 state2, MainApp.addTodo h state p = Ok (h1, state)
    ∧ removeAt h1 state (Z.of_nat (length L)) = Ok (h2, state2)
    ∧ store_todos h2 state2 = Some L.
Proof.
  intros HL Hp.
  destruct (addTodo_spec h state L p t HL Hp)
    as (arr & elems & _ & _ & Hrun & Hnew).
  destruct (removeAt_spec _ state _ (Z.of_nat (length L)) Hnew)
    as (h2 & state2 & Hrun2 & _ & Hnew2).
  eexists _, h2, state2. split; [done|]. split; [done|].
  rewrite Hnew2. f_equal.
  rewrite remove_from_in_range by (rewrite length_app; simpl; lia).
  rewrite Z.sub_0_r, Nat2Z.id.
  rewrite (delete_middle L [] t). apply app_nil_r.
Qed.

Lemma add_then_remove_last_witness :
  ∃ h1 h2 state2,
    MainApp.addTodo sample_new.1 sample_state (VRef sample_new.2)
    = Ok (h1, sample_state)
    ∧ removeAt h1 sample_state (Z.of_nat (length sample_todos))
      = Ok (h2, state2)
    ∧ store_todos h2 state2 = Some sample_todos.
Proof.
  apply (add_then_remove_last _ _ _ _ (todo "c" false));
    vm_compute; reflexivity.
Defined.

Lemma reducer_frame_defined (h : heap) state a h' state' :
  state ≠ VUndefined → type a ≠ "ADD_TODO" →
  reducer h state a = Ok (h', state') → h ⊆ h'.
Proof.
  intros Hst Hadd. unfold reducer.
  assert (∀ st, st = state →
    (if bool_decide (type a = "ADD_TODO") then
       let newState := st in
       todos ← get_prop h newState "todos";
       h1 ← array_push h todos (payload a);
       Ok (h1, newState)
     else if bool_decide (type a = "REMOVE_TODO") then
       todos ← get_prop h st "todos";
       '(h1, filtered) ←
         array_filter (λ t index, negb (strict_eq (VNum index) (payload a)))
           h todos;
       let '(h2, s) :=
         alloc h1 (OObject (<["todos" := filtered]> (spread h1 st))) in
       Ok (h2, VRef s)
     else if bool_decide (type a = "CHANGE_TODOS") then
       let '(h1, s) := alloc h (OObject {["todos" := payload a]}) in
       Ok (h1, VRef s)
     else Ok (h, st)) = Ok (h', state') → h ⊆ h') as Hbody.
  { intros st _. rewrite bool_decide_eq_false_2 by done.
    repeat case_bool_decide.
    - destruct (get_prop h st "todos") as [todos|]; [|done]. simpl.
      unfold array_filter.
      destruct (array_elems h todos) as [elems|]; [|done]. simpl.
      destruct (alloc_eq h (OArray (filter_from
        (λ _ index, negb (strict_eq (VNum index) (payload a))) 0 elems)))
        as (l1 & -> & Hl1).
      simpl.
      match goal with |- context [alloc ?m ?o] =>
        destruct (alloc_eq m o) as (l2 & -> & Hl2) end.
      intros [= <- <-].
      etrans; by apply insert_fresh_subseteq.
    - destruct (alloc_eq h (OObject {["todos" := payload a]}))
        as (l1 & -> & Hl1).
      intros [= <- <-]. by apply insert_fresh_subseteq.
    - by intros [= <- <-]. }
  destruct state; try done; by apply Hbody.
Qed.

(** X6: for every state and every action other than [ADD_TODO], whatever
    the payload, the reducer changes no cell that existed: every object
    and array that was on the heap is still there as it was. *)
Theorem reducer_keeps_cells (h : heap) state a h' state' :
  type a ≠ "ADD_TODO" →
  reducer h state a = Ok (h', state') →
  h ⊆ h'.
Proof.
  intros Hadd.
  destruct (decide (state = VUndefined)) as [->|Hst];
    [|by apply reducer_frame_defined].
  destruct (reducer_undefined h a) as (arr & s & Harr & Hs & ->).
  intros Hrun%reducer_frame_defined; [|done..].
  etrans; [|done]. etrans; by apply insert_fresh_subseteq.
Qed.

Lemma reducer_keeps_cells_witness :
  ∃ h' state',
    reducer sample_heap sample_state
      {| type := "REMOVE_TODO"; payload := VNum 0 |} = Ok (h', state')
    ∧ sample_heap ⊆ h'.
Proof.
  eexists _, _. split; [vm_compute; reflexivity|].
  eapply (reducer_keeps_cells sample_heap sample_state
            {| type := "REMOVE_TODO"; payload := VNum 0 |}).
  - discriminate.
  - vm_compute. reflexivity.
Defined.

Lemma has_todos_array_Some (h : heap) state :
  has_todos_array h state = true →
  ∃ s f arr elems, state = VRef s ∧ h !! s = Some (OObject f)
    ∧ f !! "todos" = Some (VRef arr) ∧ h !! arr = Some (OArray elems).
Proof.
  unfold has_todos_array, todos_array, select_todos.
  destruct state as [| | | |s]; try done. simpl.
  destruct (h !! s) as [[|f]|] eqn:Hs; try done. simpl.
  destruct (f !! "todos") as [[| | | |arr]|] eqn:Hf; try done. simpl.
  destruct (h !! arr) as [[elems|]|] eqn:Ha; try done.
  intros _. by exists s, f, arr, elems.
Qed.

Lemma has_todos_array_VRef (h : heap) s f arr elems :
  h !! s = Some (OObject f) → f !! "todos" = Some (VRef arr) →
  h !! arr = Some (OArray elems) → has_todos_array h (VRef s) = true.
Proof.
  intros Hs Hf Ha. unfold has_todos_array, todos_array, select_todos.
  simpl. by rewrite Hs, Hf; simpl; rewrite Ha.
Qed.

(** X7: a state whose [todos] is an array keeps that shape, and the
    reducer does not raise, under [ADD_TODO] and [REMOVE_TODO] with any
    payload, under any tag it has no case for, and under [CHANGE_TODOS]
    when the payload is an array. *)
Theorem reducer_keeps_array (h : heap) state a :
  has_todos_array h state = true →
  (type a = "CHANGE_TODOS" → is_array h (payload a) = true) →
  ∃ h' state', reducer h state a = Ok (h', state')
    ∧ has_todos_array h' state' = true.
Proof.
  intros Hshape Hchange.
  destruct (has_todos_array_Some _ _ Hshape)
    as (s & f & arr & elems & -> & Hs & Hf & Ha).
  destruct a as [ty p]. simpl in *.
  destruct (decide (ty = "ADD_TODO")) as [->|Hadd].
  { rewrite (reducer_ADD_TODO h s f arr elems p) by done.
    eexists _, _. split; [done|].
    eapply has_todos_array_VRef; [|done|apply lookup_insert_eq].
    rewrite lookup_insert_ne; [done|congruence]. }
  destruct (decide (ty = "REMOVE_TODO")) as [->|Hrem].
  { destruct (reducer_REMOVE_raw h s f arr elems p)
      as (arr' & s' & -> & Harr' & Hs' & Hne); [done..|].
    eexists _, _. split; [done|].
    eapply has_todos_array_VRef;
      [apply lookup_insert_eq|apply lookup_insert_eq|].
    rewrite lookup_insert_ne by done. apply lookup_insert_eq. }
  destruct (decide (ty = "CHANGE_TODOS")) as [->|Hchg].
  { destruct (reducer_CHANGE_TODOS h s p) as (s' & -> & Hs').
    specialize (Hchange eq_refl). unfold is_array in Hchange.
    destruct p as [| | | |l]; try done. simpl in Hchange.
    destruct (h !! l) as [[es|]|] eqn:Hl; try done.
    eexists _, _. split; [done|].
    eapply has_todos_array_VRef;
      [apply lookup_insert_eq|apply lookup_singleton_eq|].
    rewrite lookup_insert_ne; [done|congruence]. }
  rewrite reducer_default; [| done |].
  - by eexists _, _.
  - unfold tags. rewrite !not_elem_of_cons. repeat split; try done.
    apply not_elem_of_nil.
Qed.

Lemma reducer_keeps_array_witness :
  ∃ h' state',
    reducer sample_heap sample_state
      {| type := "ADD_TODO"; payload := VNum 7 |} = Ok (h', state')
    ∧ has_todos_array h' state' = true.
Proof.
  apply reducer_keeps_array.
  - vm_compute. reflexivity.
  - discriminate.
Defined.

(** X8: the reducer does not check what [CHANGE_TODOS] carries.  After a
    payload that is not an object (a number, a string, [undefined]) the
    state holds it as [todos], and from then on adding, removing,
    toggling and computing the all-done flag all raise. *)
Theorem changeTodo_non_array_breaks (h : heap) state p :
  (∀ l, p ≠ VRef l) →
  ∃ h1 state1, MainApp.changeTodo h state p = Ok (h1, state1)
    ∧ (∀ q, MainApp.addTodo h1 state1 q = Throw)
    ∧ (∀ i, removeAt h1 state1 i = Throw)
    ∧ (∀ i, toggleAt h1 state1 i = Throw)
    ∧ allDoneFlag h1 state1 = Throw.
Proof.
  intros Hp.
  destruct (changeTodo_spec h state p)
    as (h1 & s1 & Hrun & _ & _ & Hs1 & _ & _).
  exists h1, (VRef s1). split; [done|].
  unfold MainApp.addTodo, removeAt, toggleAt, allDoneFlag, select_todos,
    dispatch, reducer. simpl. rewrite Hs1. simpl.
  rewrite lookup_singleton_eq. simpl.
  unfold MainApp.onChange, MainApp.allTodosIsDone, array_map, array_filter.
  destruct p as [| | | |l]; try done. by destruct (Hp l).
Qed.

Lemma changeTodo_non_array_breaks_witness :
  ∃ h1 state1,
    MainApp.changeTodo sample_heap sample_state (VNum 5) = Ok (h1, state1)
    ∧ (∀ q, MainApp.addTodo h1 state1 q = Throw)
    ∧ (∀ i, removeAt h1 state1 i = Throw)
    ∧ (∀ i, toggleAt h1 state1 i = Throw)
    ∧ allDoneFlag h1 state1 = Throw.
Proof. apply changeTodo_non_array_breaks. discriminate. Defined.

(** * Further properties of the checkbox handler *)

Lemma toggle_toggle t : toggle (toggle t) = t.
Proof. destruct t as [s u b]. unfold toggle. simpl. by rewrite negb_involutive. Qed.

Lemma edit_from_toggle_twice idx k L :
  edit_from (edit_at toggle idx) k (edit_from (edit_at toggle idx) k L) = L.
Proof.
  revert k. induction L as [|t L IH]; intros k; [done|].
  simpl. rewrite IH. f_equal.
  unfold edit_at. case_bool_decide; [apply toggle_toggle|done].
Qed.

(** X9: toggling the same index twice commits a list equal to the one
    the store started with, for an index inside the list or outside. *)
Theorem toggleAt_twice (h : heap) state L i :
  store_todos h state = Some L →
  ∃ h1 state1 h2 state2, toggleAt h state i = Ok (h1, state1)
    ∧ toggleAt h1 state1 i = Ok (h2, state2)
    ∧ store_todos h2 state2 = Some L.
Proof.
  intros HL.
  destruct (toggleAt_spec h state L i HL)
    as (h1 & state1 & Hrun1 & _ & Hnew1 & _).
  destruct (toggleAt_spec h1 state1 _ i Hnew1)
    as (h2 & state2 & Hrun2 & _ & Hnew2 & _).
  exists h1, state1, h2, state2. split; [done|]. split; [done|].
  by rewrite Hnew2, edit_from_toggle_twice.
Qed.

Lemma toggleAt_twice_witness :
  ∃ h1 state1 h2 state2, toggleAt sample_heap sample_state 1 = Ok (h1, state1)
    ∧ toggleAt h1 state1 1 = Ok (h2, state2)
    ∧ store_todos h2 state2 = Some sample_todos.
Proof. apply toggleAt_twice. vm_compute. reflexivity. Defined.

Section map_fresh.
Variable f : heap → val → Z → result (heap * val).
Variable g : Z → Todo → Todo.

Hypothesis f_edits : ∀ (h : heap) t index td,
  read_todo h t = Some td →
  ∃ res, f h t index
         = Ok (<[res := OObject (todo_obj (g index td))]> h, VRef res)
         ∧ h !! res = None.

(** The results of the callback are cells that were not there before. *)
Lemma map_from_fresh (h0 h : heap) index elems L :
  h0 ⊆ h →
  Forall2 (λ v t, read_todo h0 v = Some t) elems L →
  ∃ h' rs, map_from f h index elems = Ok (h', rs) ∧
    Forall (λ v, ∃ l, v = VRef l ∧ h !! l = None) rs.
Proof.
  intros Hsub Hall. revert h index Hsub.
  induction Hall as [|v td elems L Hv _ IH]; intros h index Hsub.
  - exists h, []. simpl. split; [done|constructor].
  - simpl.
    destruct (f_edits h v index td) as (res & Hf & Hres);
      [by eapply read_todo_weaken|].
    set (h1 := <[res := OObject (todo_obj (g index td))]> h) in *.
    assert (h ⊆ h1) as Hh1 by by apply insert_fresh_subseteq.
    destruct (IH h1 (index + 1)) as (h2 & rs & Hmap & Hrs); [by etrans|].
    exists h2, (VRef res :: rs). rewrite Hf. simpl. rewrite Hmap. simpl.
    split; [done|]. constructor; [by exists res|].
    eapply Forall_impl; [done|]. intros v' (l & -> & Hl).
    exists l. split; [done|].
    destruct (h !! l) eqn:E; [|done].
    eapply lookup_weaken in E; [|done]. congruence.
Qed.

Lemma array_map_fresh (h : heap) arr L :
  read_todos h arr = Some L →
  ∃ h' l' rs, array_map f h arr = Ok (h', VRef l')
    ∧ h' !! l' = Some (OArray rs)
    ∧ Forall (λ v, ∃ l, v = VRef l ∧ h !! l = None) rs.
Proof.
  destruct arr as [| | | |l]; try done. simpl.
  destruct (h !! l) as [[elems|]|] eqn:Hl; try done.
  intros Hall%mapM_Some.
  unfold array_map. simpl. rewrite Hl. simpl.
  destruct (map_from_fresh h h 0 elems L) as (h1 & rs & -> & Hrs); [done..|].
  simpl. destruct (alloc_eq h1 (OArray rs)) as (l' & -> & Hl').
  exists (<[l' := OArray rs]> h1), l', rs.
  split; [done|]. split; [apply lookup_insert_eq|done].
Qed.
End map_fresh.

(** X10: what a toggle commits is all new: the state object, the array
    and every todo object in it are cells that did not exist before, so
    a consumer comparing references sees the change and nothing is
    shared with the previous list. *)
Theorem toggleAt_commits_new_cells (h : heap) state L i :
  store_todos h state = Some L →
  ∃ h' s' l' rs, toggleAt h state i = Ok (h', VRef s')
    ∧ h !! s' = None
    ∧ select_todos h' (VRef s') = Ok (VRef l')
    ∧ h !! l' = None
    ∧ h' !! l' = Some (OArray rs)
    ∧ length rs = length L
    ∧ Forall (λ v, ∃ l, v = VRef l ∧ h !! l = None) rs.
Proof.
  intros HL.
  destruct (store_todos_Some _ _ _ HL) as (s & f & arr & -> & Hs & Hf & Harr).
  unfold toggleAt, select_todos. simpl. rewrite Hs, Hf. simpl.
  unfold MainApp.onChange.
  destruct (array_map_fresh _ _ (MainApp_callback_edits i) h (VRef arr) L)
    as (h1 & l' & rs & Hmap & Hl' & Hrs); [done|].
  destruct (array_map_edit _ _ (MainApp_callback_edits i) h (VRef arr) L)
    as (h1' & l'' & Hmap' & Hh1 & Hfresh & Hread); [done|].
  rewrite Hmap in Hmap'. simplify_eq. rewrite Hmap. simpl.
  unfold MainApp.changeTodo, dispatch.
  destruct (reducer_CHANGE_TODOS h1' s (VRef l'')) as (s' & -> & Hs').
  exists (<[s' := OObject {["todos" := VRef l'']}]> h1'), s', l'', rs.
  split; [done|]. split.
  { destruct (h !! s') eqn:E; [|done].
    eapply lookup_weaken in E; [|done]. congruence. }
  split; [simpl; by rewrite lookup_insert_eq|].
  split; [done|]. split.
  { rewrite lookup_insert_ne; [done|congruence]. }
  split; [|done].
  simpl in Hread. rewrite Hl' in Hread.
  apply length_mapM in Hread. rewrite Hread.
  clear. generalize 0. induction L as [|t L IH]; intros k; [done|].
  simpl. by rewrite IH.
Qed.

Lemma toggleAt_commits_new_cells_witness :
  ∃ h' s' l' rs, toggleAt sample_heap sample_state 0 = Ok (h', VRef s')
    ∧ sample_heap !! s' = None
    ∧ select_todos h' (VRef s') = Ok (VRef l')
    ∧ sample_heap !! l' = None
    ∧ h' !! l' = Some (OArray rs)
    ∧ length rs = length sample_todos
    ∧ Forall (λ v, ∃ l, v = VRef l ∧ sample_heap !! l = None) rs.
Proof. apply toggleAt_commits_new_cells. vm_compute. reflexivity. Defined.

(** X11: once a toggle has been committed, adding a todo changes the new
    list only: the state held before the toggle still reads the list it
    read then. *)
Theorem toggle_then_add_keeps_snapshot (h : heap) state L i p t :
  store_todos h state = Some L →
  0 ≤ i < Z.of_nat (length L) →
  read_todo h p = Some t →
  ∃ h1 state1 h2, toggleAt h state i = Ok (h1, state1)
    ∧ MainApp.addTodo h1 state1 p = Ok (h2, state1)
    ∧ store_todos h2 state1
      = Some (alter toggle (Z.to_nat i) L ++ [t])%list
    ∧ store_todos h2 state = Some L.
Proof.
  intros HL Hi Hp.
  destruct (toggleAt_spec h state L i HL)
    as (h1 & state1 & Hrun & Hsub & Hnew & l' & Hsel & Hfresh).
  rewrite edit_from_in_range, Z.sub_0_r in Hnew by lia.
  destruct (addTodo_spec h1 state1 _ p t Hnew)
    as (arr & elems & Ha & Hsel' & Hadd & Hnew2);
    [by eapply read_todo_weaken|].
  rewrite Hsel in Hsel'. simplify_eq.
  eexists h1, state1, _. split; [done|]. split; [done|]. split; [done|].
  eapply store_todos_weaken; [|done].
  by apply insert_subseteq_r.
Qed.

Lemma toggle_then_add_keeps_snapshot_witness :
  ∃ h1 state1 h2, toggleAt sample_new.1 sample_state 0 = Ok (h1, state1)
    ∧ MainApp.addTodo h1 state1 (VRef sample_new.2) = Ok (h2, state1)
    ∧ store_todos h2 state1
      = Some (alter toggle (Z.to_nat 0) sample_todos ++ [todo "c" false])%list
    ∧ store_todos h2 sample_state = Some sample_todos.
Proof.
  apply toggle_then_add_keeps_snapshot.
  - vm_compute. reflexivity.
  - simpl. lia.
  - vm_compute. reflexivity.
Defined.

(** * Further properties of the all-done flag *)

Lemma allDoneFlag_last (h : heap) state L :
  store_todos h state = Some L →
  allDoneFlag h state = Ok (from_option isDone true (last L)).
Proof.
  intros (s & f & arr & -> & Hs & Hf & Harr)%store_todos_Some.
  unfold allDoneFlag, select_todos. simpl. rewrite Hs, Hf. simpl.
  by apply allTodosIsDone_last.
Qed.

(** X12: on every store holding a list of todos, the flag that [render]
    computes is the [isDone] of the last todo of the list, and [true]
    when the list is empty; it never raises. *)
Theorem allDoneFlag_is_last (h : heap) state L :
  store_todos h state = Some L →
  allDoneFlag h state = Ok (from_option isDone true (last L)).
Proof. apply allDoneFlag_last. Qed.

Lemma allDoneFlag_is_last_witness :
  allDoneFlag sample_heap sample_state
  = Ok (from_option isDone true (last sample_todos)).
Proof. apply allDoneFlag_is_last. vm_compute. reflexivity. Defined.

(** X13: the flag is never wrong on a list whose todos are all done: if
    the list is not empty and every todo is done, the flag is [true]; and
    on a list of one todo the flag is the conjunction. *)
Theorem allDoneFlag_complete (h : heap) state L :
  store_todos h state = Some L →
  (allDone L = true → allDoneFlag h state = Ok true)
  ∧ (length L = 1%nat → allDoneFlag h state = Ok (allDone L)).
Proof.
  intros HL. rewrite (allDoneFlag_last h state L HL). split.
  - unfold allDone. intros [Hlen Hall]%andb_true_iff.
    destruct (last L) as [t|] eqn:Hlast; [|done]. simpl.
    apply last_Some in Hlast as (L' & ->).
    rewrite forallb_app in Hall. apply andb_true_iff in Hall as [_ Hall].
    simpl in Hall. rewrite andb_true_r in Hall. by rewrite Hall.
  - destruct L as [|t [|t' L]]; try done. intros _.
    unfold allDone. simpl. by rewrite andb_true_r.
Qed.

Lemma allDoneFlag_complete_witness :
  (allDone [todo "a" true] = true →
   allDoneFlag (store_of [todo "a" true]).1 (store_of [todo "a" true]).2
   = Ok true)
  ∧ (length [todo "a" true] = 1%nat →
     allDoneFlag (store_of [todo "a" true]).1 (store_of [todo "a" true]).2
     = Ok (allDone [todo "a" true])).
Proof. apply allDoneFlag_complete. vm_compute. reflexivity. Defined.

(** * Further properties of the user select *)

Lemma edit_from_lookup g k L (j : nat) :
  edit_from g k L !! j = g (k + Z.of_nat j) <$> L !! j.
Proof.
  revert k j. induction L as [|t L IH]; intros k [|j]; simpl; try done.
  - by rewrite Z.add_0_r.
  - rewrite IH. do 2 f_equal. lia.
Qed.

Lemma edit_from_length g k L : length (edit_from g k L) = length L.
Proof. revert k. induction L as [|t L IH]; intros k; simpl; by rewrite ?IH. Qed.

(** X14: the list [handleChange] builds for its action is a copy of the
    selected list, of the same length: every todo keeps its title and its
    [isDone], every todo but the one at [idx] is equal to the one it was
    copied from, and the selected list itself reads as before. *)
Theorem handleChange_builds_copy (h : heap) todos L idx value :
  read_todos h todos = Some L →
  ∃ h' changedTodos L',
    array_map (UserSelect.callback idx value) h todos
    = Ok (h', changedTodos)
    ∧ h ⊆ h'
    ∧ read_todos h' todos = Some L
    ∧ read_todos h' changedTodos = Some L'
    ∧ length L' = length L
    ∧ ∀ (j : nat) t, L !! j = Some t →
        ∃ t', L' !! j = Some t' ∧ title t' = title t
          ∧ isDone t' = isDone t ∧ (Z.of_nat j ≠ idx → t' = t).
Proof.
  intros HL.
  destruct (array_map_edit _ _ (UserSelect_callback_edits idx value)
              h todos L HL) as (h' & l' & Hrun & Hsub & _ & Hnew).
  eexists h', (VRef l'), _. split; [done|]. split; [done|].
  split; [by eapply read_todos_weaken|]. split; [done|].
  split; [apply edit_from_length|].
  intros j t Hj. rewrite edit_from_lookup, Hj. simpl.
  eexists. split; [done|]. unfold edit_at.
  case_bool_decide; [|done]. by repeat split.
Qed.

Lemma handleChange_builds_copy_witness :
  ∃ h' changedTodos L',
    array_map (UserSelect.callback 0 "3") sample_heap (VRef 3%positive)
    = Ok (h', changedTodos)
    ∧ sample_heap ⊆ h'
    ∧ read_todos h' (VRef 3%positive) = Some sample_todos
    ∧ read_todos h' changedTodos = Some L'
    ∧ length L' = length sample_todos
    ∧ ∀ (j : nat) t, sample_todos !! j = Some t →
        ∃ t', L' !! j = Some t' ∧ title t' = title t
          ∧ isDone t' = isDone t ∧ (Z.of_nat j ≠ 0 → t' = t).
Proof. apply handleChange_builds_copy. vm_compute. reflexivity. Defined.

(** * Further properties of the input *)

(** ** White space and [trim] *)

Lemma trimStart_blank s : trimStart s = "" ↔ blank s = true.
Proof.
  induction s as [|c s IH]; simpl; [done|].
  destruct (is_white_space c); simpl; [done|]. split; discriminate.
Qed.

Lemma blank_rev_app s1 s2 :
  blank (String.rev_app s1 s2) = blank s1 && blank s2.
Proof.
  revert s2. induction s1 as [|c s1 IH]; intros s2; simpl; [done|].
  rewrite IH. simpl.
  destruct (is_white_space c), (blank s1); simpl; try done.
Qed.

Lemma blank_rev s : blank (String.rev s) = blank s.
Proof. unfold String.rev. rewrite blank_rev_app. simpl. apply andb_true_r. Qed.

Lemma rev_app_empty s1 s2 : String.rev_app s1 s2 = "" → s1 = "" ∧ s2 = "".
Proof.
  revert s2. induction s1 as [|c s1 IH]; intros s2; simpl; [done|].
  intros [_ [=]]%IH.
Qed.

Lemma blank_trimStart s : blank (trimStart s) = blank s.
Proof.
  induction s as [|c s IH]; simpl; [done|].
  destruct (is_white_space c) eqn:Hc; simpl; [done|]. by rewrite Hc.
Qed.

(** [trim] yields the empty string exactly on the strings of white space. *)
Lemma trim_empty_iff_blank s : trim s = "" ↔ blank s = true.
Proof.
  unfold trim, trimEnd. split.
  - intros [Hrev _]%rev_app_empty.
    apply trimStart_blank in Hrev.
    by rewrite blank_rev, blank_trimStart in Hrev.
  - intros Hs. apply trimStart_blank in Hs. by rewrite Hs.
Qed.

Lemma trim_blank_false s : blank s = false → trim s ≠ "".
Proof. intros Hs Ht%trim_empty_iff_blank. congruence. Qed.

(** ** Key presses *)

Lemma handleKeyDown_blank (h : heap) st :
  blank (InputNewTodo.value st) = true →
  InputNewTodo.handleKeyDown h (Some st) 13 = Ok (h, []).
Proof.
  intros Hb%trim_empty_iff_blank.
  unfold InputNewTodo.handleKeyDown. simpl. by rewrite Hb.
Qed.

(** Enter on a draft that is not blank, on a store holding [L]. *)
Lemma keyDown_confirm_spec (a : MainApp.app) L draft :
  store_todos (MainApp.mem a) (MainApp.list_state a) = Some L →
  MainApp.input a = Some {| InputNewTodo.value := draft |} →
  blank draft = false →
  ∃ h', MainApp.keyDown a 13
    = Ok {| MainApp.mem := h'; MainApp.list_state := MainApp.list_state a;
            MainApp.todoTitle := "";
            MainApp.input :=
              InputNewTodo.componentDidUpdate "" (MainApp.todoTitle a)
                (MainApp.input a) |}
    ∧ store_todos h' (MainApp.list_state a)
      = Some (L ++ [todo draft false])%list.
Proof.
  intros HL Hin Hb%trim_blank_false.
  destruct (handleKeyDown_confirm (MainApp.mem a) draft Hb)
    as (l & Hkey & Hl).
  set (h1 := <[l := OObject (todo_obj (todo draft false))]> (MainApp.mem a))
    in *.
  assert (MainApp.mem a ⊆ h1) as Hh1 by by apply insert_fresh_subseteq.
  destruct (addTodo_spec h1 (MainApp.list_state a) L (VRef l)
              (todo draft false)) as (arr & elems & _ & _ & Hadd & Hnew).
  { by eapply store_todos_weaken. }
  { apply read_todo_Some. exists l. split; [done|]. apply lookup_insert_eq. }
  eexists. split; [|done].
  unfold MainApp.keyDown. rewrite Hin, Hkey. simpl. by rewrite Hadd.
Qed.

(** X15: every key other than Enter is ignored: the handler calls none of
    its props, whatever the state of the input (even unset), and the
    application is exactly what it was. *)
Theorem keyDown_other_keys (a : MainApp.app) (keyCode : Z) :
  keyCode ≠ 13 →
  InputNewTodo.handleKeyDown (MainApp.mem a) (MainApp.input a) keyCode
  = Ok (MainApp.mem a, [])
  ∧ MainApp.keyDown a keyCode = Ok a.
Proof.
  intros Hk.
  assert (InputNewTodo.handleKeyDown (MainApp.mem a) (MainApp.input a) keyCode
          = Ok (MainApp.mem a, [])) as Hkey.
  { unfold InputNewTodo.handleKeyDown. by rewrite bool_decide_eq_true_2. }
  split; [done|].
  unfold MainApp.keyDown. rewrite Hkey. simpl. by destruct a.
Qed.

Lemma keyDown_other_keys_witness :
  InputNewTodo.handleKeyDown (MainApp.mem initial_app)
    (MainApp.input initial_app) 65
  = Ok (MainApp.mem initial_app, [])
  ∧ MainApp.keyDown initial_app 65 = Ok initial_app.
Proof. apply keyDown_other_keys. lia. Defined.

(** X16: on a store holding a list of todos, Enter raises exactly when
    the state of the input was never set, which is the case until the
    draft has changed once. *)
Theorem keyDown_enter_raises_iff_unset (a : MainApp.app) L :
  store_todos (MainApp.mem a) (MainApp.list_state a) = Some L →
  MainApp.keyDown a 13 = Throw ↔ MainApp.input a = None.
Proof.
  intros HL. split.
  - destruct (MainApp.input a) as [[draft]|] eqn:Hin; [|done].
    destruct (blank draft) eqn:Hb.
    + unfold MainApp.keyDown. rewrite Hin.
      by rewrite (handleKeyDown_blank _ {| InputNewTodo.value := draft |}).
    + destruct (keyDown_confirm_spec a L draft HL Hin Hb) as (h' & -> & _).
      done.
  - intros Hin. unfold MainApp.keyDown. by rewrite Hin.
Qed.

Lemma keyDown_enter_raises_iff_unset_witness :
  MainApp.keyDown initial_app 13 = Throw ↔ MainApp.input initial_app = None.
Proof.
  apply (keyDown_enter_raises_iff_unset initial_app []).
  vm_compute. reflexivity.
Defined.

(** X17: Enter on a draft with a character that is not white space, on a
    store holding [L], appends exactly one todo to the list: open, with
    no user, with a title that does not trim to the empty string; the
    todos of [L] stay in place, the store keeps its state object and the
    draft of [Index] is reset to the empty string. *)
Theorem keyDown_enter_appends (a : MainApp.app) L draft :
  store_todos (MainApp.mem a) (MainApp.list_state a) = Some L →
  MainApp.input a = Some {| InputNewTodo.value := draft |} →
  blank draft = false →
  ∃ a' t, MainApp.keyDown a 13 = Ok a'
    ∧ store_todos (MainApp.mem a') (MainApp.list_state a')
      = Some (L ++ [t])%list
    ∧ isDone t = false ∧ user t = None ∧ trim (title t) ≠ ""
    ∧ MainApp.list_state a' = MainApp.list_state a
    ∧ MainApp.todoTitle a' = "".
Proof.
  intros HL Hin Hb.
  destruct (keyDown_confirm_spec a L draft HL Hin Hb) as (h' & Hrun & Hnew).
  eexists _, (todo draft false). split; [done|]. simpl.
  repeat split; try done. by apply trim_blank_false.
Qed.

Lemma keyDown_enter_appends_witness :
  ∃ a' t, MainApp.keyDown sample_app 13 = Ok a'
    ∧ store_todos (MainApp.mem a') (MainApp.list_state a')
      = Some ([] ++ [t])%list
    ∧ isDone t = false ∧ user t = None ∧ trim (title t) ≠ ""
    ∧ MainApp.list_state a' = MainApp.list_state sample_app
    ∧ MainApp.todoTitle a' = "".
Proof.
  apply (keyDown_enter_appends sample_app [] " x "); vm_compute; reflexivity.
Defined.

(** X18: for a draft made of code units below 256, the strings of this
    embedding, pressing Enter makes the input call none of its props
    exactly when the draft is empty or consists only of the white space
    [trim] strips in that range: TAB, LF, VT, FF, CR, SP and NBSP. *)
Theorem enter_calls_nothing_iff_blank (h : heap) draft :
  InputNewTodo.handleKeyDown h (Some {| InputNewTodo.value := draft |}) 13
  = Ok (h, [])
  ↔ blank draft = true.
Proof.
  split.
  - destruct (blank draft) eqn:Hb; [done|].
    destruct (handleKeyDown_confirm h draft (trim_blank_false _ Hb))
      as (l & -> & _).
    discriminate.
  - apply (handleKeyDown_blank h {| InputNewTodo.value := draft |}).
Qed.

(** X19: the two copies of the draft agree: if the draft in the state of
    the input, when set, is the draft in the state of [Index], this is
    still so after any change of the text and after any key press. *)
Theorem draft_stays_in_sync (a : MainApp.app) :
  in_sync a = true →
  (∀ text a', MainApp.change a text = Ok a' → in_sync a' = true)
  ∧ (∀ keyCode a', MainApp.keyDown a keyCode = Ok a' → in_sync a' = true).
Proof.
  intros Hsync.
  assert (∀ title,
    in_sync {| MainApp.mem := MainApp.mem a;
               MainApp.list_state := MainApp.list_state a;
               MainApp.todoTitle := title;
               MainApp.input :=
                 InputNewTodo.componentDidUpdate title (MainApp.todoTitle a)
                   (MainApp.input a) |} = true) as Hupdate.
  { intros title. unfold in_sync, InputNewTodo.componentDidUpdate in *.
    simpl. case_bool_decide as Hne; simpl; [by apply bool_decide_eq_true_2|].
    destruct (decide (title = MainApp.todoTitle a)) as [->|]; done. }
  split.
  - intros text a'. unfold MainApp.change, InputNewTodo.handleChange. simpl.
    intros [= <-]. unfold in_sync in *. simpl. apply (Hupdate text).
  - intros keyCode a'. unfold MainApp.keyDown, InputNewTodo.handleKeyDown.
    case_bool_decide as Hk; simpl.
    { intros [= <-]. by destruct a. }
    destruct (MainApp.input a) as [[draft]|] eqn:Hin; [|done]. simpl.
    destruct (negb _); simpl.
    + match goal with |- context [alloc ?m ?o] =>
        destruct (alloc_eq m o) as (l & -> & _) end.
      simpl. destruct (MainApp.addTodo _ _ _) as [[h2 state2]|]; [|done].
      simpl. intros [= <-].
      apply (Hupdate "").
    + intros [= <-]. unfold in_sync in Hsync |- *. simpl.
      by rewrite Hin in Hsync.
Qed.

Lemma draft_stays_in_sync_witness :
  (∀ text a', MainApp.change sample_app text = Ok a' → in_sync a' = true)
  ∧ (∀ keyCode a',
       MainApp.keyDown sample_app keyCode = Ok a' → in_sync a' = true).
Proof. apply draft_stays_in_sync. vm_compute. reflexivity. Defined.

(** X20: on a store holding a list of todos, changing the draft to a
    different text and pressing Enter never raises.  Typing leaves the
    list as it was.  If the text trims to the empty string, Enter then
    changes nothing at all: the application, list and draft included, is
    what it was after typing.  Otherwise exactly one todo is appended to
    the list, the store keeps its state object and the draft is reset to
    the empty string. *)
Theorem change_then_enter (a : MainApp.app) L text :
  store_todos (MainApp.mem a) (MainApp.list_state a) = Some L →
  text ≠ MainApp.todoTitle a →
  ∃ a1 a2, MainApp.change a text = Ok a1
    ∧ MainApp.keyDown a1 13 = Ok a2
    ∧ store_todos (MainApp.mem a1) (MainApp.list_state a1) = Some L
    ∧ MainApp.todoTitle a1 = text
    ∧ (trim text = "" → a2 = a1)
    ∧ (trim text ≠ "" →
       ∃ t, store_todos (MainApp.mem a2) (MainApp.list_state a2)
            = Some (L ++ [t])%list
         ∧ MainApp.list_state a2 = MainApp.list_state a1
         ∧ MainApp.todoTitle a2 = "").
Proof.
  intros HL Hne.
  set (a1 := {| MainApp.mem := MainApp.mem a;
                MainApp.list_state := MainApp.list_state a;
                MainApp.todoTitle := text;
                MainApp.input := Some {| InputNewTodo.value := text |} |}).
  assert (MainApp.change a text = Ok a1) as Hchange.
  { unfold MainApp.change, InputNewTodo.handleChange. simpl.
    unfold InputNewTodo.componentDidUpdate.
    by rewrite bool_decide_eq_true_2. }
  destruct (blank text) eqn:Hb.
  - exists a1, a1. split; [done|]. split.
    { unfold MainApp.keyDown. simpl.
      by rewrite (handleKeyDown_blank _ {| InputNewTodo.value := text |}). }
    split; [done|]. split; [done|]. split; [done|].
    intros Htrim. by apply trim_empty_iff_blank in Hb.
  - destruct (keyDown_confirm_spec a1 L text HL eq_refl Hb)
      as (h' & Hrun & Hnew).
    eexists a1, _. split; [done|]. split; [done|].
    split; [done|]. split; [done|]. split.
    + intros Htrim%trim_empty_iff_blank. congruence.
    + intros _. by exists (todo text false).
Qed.

Lemma change_then_enter_witness :
  ∃ a1 a2, MainApp.change initial_app " x " = Ok a1
    ∧ MainApp.keyDown a1 13 = Ok a2
    ∧ store_todos (MainApp.mem a1) (MainApp.list_state a1) = Some []
    ∧ MainApp.todoTitle a1 = " x "
    ∧ (trim " x " = "" → a2 = a1)
    ∧ (trim " x " ≠ "" →
       ∃ t, store_todos (MainApp.mem a2) (MainApp.list_state a2)
            = Some ([] ++ [t])%list
         ∧ MainApp.list_state a2 = MainApp.list_state a1
         ∧ MainApp.todoTitle a2 = "").
Proof.
  apply change_then_enter.
  - vm_compute. reflexivity.
  - vm_compute. discriminate.
Defined.
